(** * NASA Exoplanet Archive client: model and verification

    Shallow embedding of
    [astroquery/nasa_exoplanet_archive/nasa_exoplanet_archive.py]:
    the class [NasaExoplanetArchiveClass] with its three query methods
    [query_planet], [query_star] and [get_confirmed_planets_table].

    The methods thread the instance attributes, perform I/O through
    astropy ([download_file], [ascii.read]) and may raise.  They are
    modelled in a state-and-exception monad over a [machine] holding the
    instance, an object allocator (Python's [is] compares identities) and
    the trace of I/O calls performed so far. *)

From stdpp Require Import gmap strings list.
From Stdlib Require Import Ascii String NArith ZArith QArith Lia.

Open Scope N_scope.

(** ** Python text

    A Python [str] is a sequence of Unicode code points.  [str.strip] looks
    at code points and [urllib.parse.quote] at the UTF-8 bytes, so a name is
    a [list N] of code points; URLs, which are ASCII, are Rocq strings. *)

Module PyStr.

(** An ASCII literal as Python text. *)
Definition lit (s : string) : list N :=
  map N_of_ascii (list_ascii_of_string s).

(** [str.isspace] on one code point: the set [str.strip()] removes. *)
Definition isspace (c : N) : bool :=
  ((0x09 <=? c) && (c <=? 0x0D)) || ((0x1C <=? c) && (c <=? 0x20))
  || (c =? 0x85) || (c =? 0xA0) || (c =? 0x1680)
  || ((0x2000 <=? c) && (c <=? 0x200A))
  || (c =? 0x2028) || (c =? 0x2029) || (c =? 0x202F) || (c =? 0x205F)
  || (c =? 0x3000).

Fixpoint lstrip (s : list N) : list N :=
  match s with
  | [] => []
  | c :: s' => if isspace c then lstrip s' else s
  end.

Fixpoint rstrip (s : list N) : list N :=
  match s with
  | [] => []
  | c :: s' =>
      match rstrip s' with
      | [] => if isspace c then [] else [c]
      | r => c :: r
      end
  end.

(** [s.strip()] *)
Definition strip (s : list N) : list N := rstrip (lstrip s).

(** ["'{0}'".format(s)] *)
Definition format_quoted (s : list N) : list N := lit "'" ++ s ++ lit "'".

(** [str.encode('utf-8', 'strict')] on one code point; lone surrogates
    raise [UnicodeEncodeError], and nothing above U+10FFFF is a code
    point. *)
Definition utf8_encode_cp (c : N) : option (list N) :=
  if c <? 0x80 then Some [c]
  else if c <? 0x800 then Some [0xC0 + c / 64; 0x80 + c mod 64]
  else if c <? 0x10000 then
    if (0xD800 <=? c) && (c <=? 0xDFFF) then None
    else Some [0xE0 + c / 4096; 0x80 + (c / 64) mod 64; 0x80 + c mod 64]
  else if c <? 0x110000 then
    Some [0xF0 + c / 262144; 0x80 + (c / 4096) mod 64;
          0x80 + (c / 64) mod 64; 0x80 + c mod 64]
  else None.

Fixpoint utf8_encode (s : list N) : option (list N) :=
  match s with
  | [] => Some []
  | c :: s' =>
      match utf8_encode_cp c, utf8_encode s' with
      | Some b, Some bs => Some (b ++ bs)
      | _, _ => None
      end
  end.

(** Code points [utf-8] can encode: all but the surrogates. *)
Definition scalar_value (c : N) : bool :=
  (c <? 0xD800) || ((0xDFFF <? c) && (c <? 0x110000)).

(** [urllib.parse]: the bytes [quote] never escapes
    ([_ALWAYS_SAFE]: letters, digits and [_.-~]). *)
Definition always_safe (b : N) : bool :=
  ((0x41 <=? b) && (b <=? 0x5A)) || ((0x61 <=? b) && (b <=? 0x7A))
  || ((0x30 <=? b) && (b <=? 0x39))
  || (b =? 0x5F) || (b =? 0x2E) || (b =? 0x2D) || (b =? 0x7E).

(** The default [safe='/'] of [quote]. *)
Definition safe_byte (b : N) : bool := always_safe b || (b =? 0x2F).

Definition hexdigit (n : N) : ascii :=
  if n <? 10 then ascii_of_N (0x30 + n) else ascii_of_N (0x41 + (n - 10)).

(** One byte through the quoter: itself when safe, else ['%{:02X}']. *)
Definition quote_byte (b : N) : string :=
  if safe_byte b then String (ascii_of_N b) EmptyString
  else String "%" (String (hexdigit (b / 16)) (String (hexdigit (b mod 16)) EmptyString)).

Fixpoint quote_from_bytes (bs : list N) : string :=
  match bs with
  | [] => EmptyString
  | b :: bs' => (quote_byte b ++ quote_from_bytes bs')%string
  end.

(** [urllib.parse.quote(s)]: [None] stands for [UnicodeEncodeError]. *)
Definition quote (s : list N) : option string :=
  match utf8_encode s with
  | Some bs => Some (quote_from_bytes bs)
  | None => None
  end.

End PyStr.

Import PyStr.

(** ** astropy values

    Cell values are opaque to this module: it only hands them to astropy,
    so the model is parametric in their type. *)

(** A unit: [u.Unit(name)], or the product of two units. *)
Inductive Unit :=
  | MkUnit (name : string)
  | UnitMul (a b : Unit).

(** [u.deg] *)
Definition deg : Unit := MkUnit "deg".

Section Values.
Context {value : Type}.

(** [column * unit]: the column's values tagged with the unit. *)
Record Quantity := { q_value : list value; q_unit : Unit }.

(** A [SkyCoord], represented by the arguments it was built from. *)
Record SkyCoord := { ra : Quantity; dec : Quantity }.

Inductive ColumnData :=
  | Values (vs : list value)
  | Mixin (c : SkyCoord).

(** A table column: its name, its content and its [unit] attribute. *)
Record Column :=
  { col_name : string; col_data : ColumnData; col_unit : option Unit }.

(** A table: its columns in [colnames] order. *)
Definition Table := list Column.

Definition colnames (t : Table) : list string := map col_name t.

(** [t[name]] *)
Fixpoint getitem (t : Table) (name : string) : option Column :=
  match t with
  | [] => None
  | c :: t' => if String.eqb (col_name c) name then Some c else getitem t' name
  end.

(** [t[name] = data]: replaces the column of that name, or appends one. *)
Fixpoint setitem (t : Table) (name : string) (data : ColumnData) : Table :=
  match t with
  | [] => [ {| col_name := name; col_data := data; col_unit := None |} ]
  | c :: t' =>
      if String.eqb (col_name c) name
      then {| col_name := name; col_data := data; col_unit := None |} :: t'
      else c :: setitem t' name data
  end.

(** [t[name].unit = u]: on a column of values the column's unit; on a
    coordinate column an attribute of the coordinate object. *)
Fixpoint set_unit (t : Table) (name : string) (u : Unit) : Table :=
  match t with
  | [] => []
  | c :: t' =>
      if String.eqb (col_name c) name
      then {| col_name := col_name c; col_data := col_data c;
              col_unit := Some u |} :: t'
      else c :: set_unit t' name u
  end.

(** The unit of [column * u]: [u] itself for a column without a unit,
    the product of the two otherwise. *)
Definition times (o : option Unit) (u : Unit) : Unit :=
  match o with
  | None => u
  | Some u' => UnitMul u' u
  end.

(** [column * u]: the column's values with the unit [times] gives.  It
    raises [TypeError] ([None]) on a column that is not numeric, which
    [numeric] tells, and on a coordinate column. *)
Definition mul_unit (numeric : list value -> bool) (c : Column) (u : Unit)
  : option Quantity :=
  match col_data c with
  | Values vs =>
      if numeric vs
      then Some {| q_value := vs; q_unit := times (col_unit c) u |}
      else None
  | Mixin _ => None
  end.

(** [QTable(t)] on one column: a column of values keeps its values and
    its unit; a coordinate column is copied, and an attribute set on the
    coordinate object is not carried over to the copy. *)
Definition QTable_column (c : Column) : Column :=
  match col_data c with
  | Values _ => c
  | Mixin _ =>
      {| col_name := col_name c; col_data := col_data c; col_unit := None |}
  end.

Definition QTable_columns (t : Table) : Table := map QTable_column t.

(** A table as delimited text gives it: named columns of values, none of
    them carrying a unit. *)
Definition parsed_table := list (string * list value).

Definition plain_column (c : string * list value) : Column :=
  {| col_name := fst c; col_data := Values (snd c); col_unit := None |}.

Definition Table_of_parsed (p : parsed_table) : Table := map plain_column p.

(** ** Objects with identity *)

(** A [str] object: [is] compares [oid], [==] would compare [chars]. *)
Record PyString := { oid : nat; chars : list N }.

(** A [QTable] object. *)
Record QTable := { tid : nat; cols : Table }.

(** [a is b] where [a] may be [None] and [b] is a string object. *)
Definition is_ (a : option PyString) (b : PyString) : bool :=
  match a with
  | Some a => Nat.eqb (oid a) (oid b)
  | None => false
  end.

Definition is_not_None {A} (a : option A) : bool :=
  match a with Some _ => true | None => false end.

(** ** The client instance and the machine *)

Record NasaExoplanetArchiveClass :=
  { _param_units : option (gmap string string);
    _table : option QTable;
    _cache_planet : option PyString;
    _cache_star : option PyString }.

(** [__init__] *)
Definition __init__ : NasaExoplanetArchiveClass :=
  {| _param_units := None; _table := None;
     _cache_planet := None; _cache_star := None |}.

Inductive fetch_error := NetworkFailure | TimedOut.
Inductive read_error := Unreadable | Malformed.

(** I/O calls, in the order performed. *)
Inductive event :=
  | EDownload (url : string) (cache show_progress : bool) (timeout : Z)
  | ERead (path : string) (fast_reader : bool)
  | ELoadUnits.

(** What a call can raise: [UnicodeEncodeError] from [quote], the
    failure of [download_file] or of [ascii.read], [KeyError] from
    [table[name]], [TypeError] from [column * u.deg] on a column that
    holds no numbers and from [QTable(...)], whatever [SkyCoord(...)]
    raises, and [ValueError] from [u.Unit(name)]. *)
Inductive exn :=
  | UnicodeEncodeError
  | FetchError (e : fetch_error)
  | ReadError (e : read_error)
  | KeyError (key : string)
  | TypeError
  | CoordinateError
  | ValueError.

Record machine :=
  { self : NasaExoplanetArchiveClass; next_id : nat; trace : list event }.

(** The world around the client.  Answers may depend on the calls made
    so far, so a file or the archive can change between two calls. *)
Record runtime :=
  { (** content of [data/exoplanet_nexsci_units.json] *)
    units_json : gmap string string;
    (** [astropy.utils.data.download_file]: the local path, or a failure *)
    download_file :
      list event -> string -> bool -> bool -> Z -> fetch_error + string;
    (** [astropy.io.ascii.read]: the table read, whose columns carry the
        units the file declares, if its format has any *)
    ascii_read : list event -> string -> bool -> read_error + Table;
    (** [hasattr(u, name)] *)
    hasattr_u : string -> bool;
    (** whether [u.Unit(name)] builds a unit; it raises [ValueError]
        otherwise *)
    Unit_accepts : string -> bool;
    (** whether the values of a column are numbers *)
    is_numeric : list value -> bool;
    (** whether astropy builds a coordinate from these angles *)
    SkyCoord_accepts : Quantity -> Quantity -> bool;
    (** whether [QTable(t)] builds the table: a column with a unit that
        cannot become a [Quantity] makes some versions of astropy raise
        [TypeError], others keep the column *)
    QTable_accepts : Table -> bool }.

End Values.

Arguments Quantity : clear implicits.
Arguments SkyCoord : clear implicits.
Arguments ColumnData : clear implicits.
Arguments Column : clear implicits.
Arguments Table : clear implicits.
Arguments parsed_table : clear implicits.
Arguments QTable : clear implicits.
Arguments NasaExoplanetArchiveClass : clear implicits.
Arguments machine : clear implicits.
Arguments runtime : clear implicits.

(** ** The state-and-exception monad *)

Inductive outcome (A : Type) :=
  | Return (a : A)
  | Raise (e : exn).
Arguments Return {A} a.
Arguments Raise {A} e.

Section Monad.
Context {value : Type}.

Definition M (A : Type) : Type := machine value -> outcome A * machine value.

Definition ret {A} (a : A) : M A := fun m => (Return a, m).

Definition raise {A} (e : exn) : M A := fun m => (Raise e, m).

Definition bind {A B} (c : M A) (k : A -> M B) : M B :=
  fun m =>
    match c m with
    | (Return a, m') => k a m'
    | (Raise e, m') => (Raise e, m')
    end.

End Monad.

Arguments M : clear implicits.

Notation "x <- c ;; k" := (bind c (fun x => k))
  (at level 100, c at next level, right associativity).
Notation "c ;;; k" := (bind c (fun _ => k))
  (at level 100, right associativity).

Section Client.
Context {value : Type} (rt : runtime value).

Definition get_self : M value (NasaExoplanetArchiveClass value) :=
  fun m => (Return (self m), m).

Definition put_self (s : NasaExoplanetArchiveClass value) : M value unit :=
  fun m => (Return tt, {| self := s; next_id := next_id m; trace := trace m |}).

(** The next object identity. *)
Definition fresh : M value nat :=
  fun m => (Return (next_id m),
            {| self := self m; next_id := S (next_id m); trace := trace m |}).

Definition log (e : event) : M value unit :=
  fun m => (Return tt,
            {| self := self m; next_id := next_id m; trace := trace m ++ [e] |}).

Definition history : M value (list event) := fun m => (Return (trace m), m).

Definition or_raise {A} (o : option A) (e : exn) : M value A :=
  match o with
  | Some a => ret a
  | None => raise e
  end.

(** ["'{0}'".format(s)]: [str.format] builds a new string object. *)
Definition str_format_quoted (s : list N) : M value PyString :=
  i <- fresh ;; ret {| oid := i; chars := format_quoted s |}.

(** [QTable(t)]: a new table object over the columns of [t]. *)
Definition new_QTable (t : Table value) : M value (QTable value) :=
  if QTable_accepts rt t
  then i <- fresh ;; ret {| tid := i; cols := QTable_columns t |}
  else raise TypeError.

Definition call_download_file (url : string) (cache show_progress : bool)
    (timeout : Z) : M value string :=
  h <- history ;;
  log (EDownload url cache show_progress timeout) ;;;
  match download_file rt h url cache show_progress timeout with
  | inr path => ret path
  | inl e => raise (FetchError e)
  end.

Definition call_ascii_read (path : string) (fast_reader : bool)
  : M value (Table value) :=
  h <- history ;;
  log (ERead path fast_reader) ;;;
  match ascii_read rt h path fast_reader with
  | inr t => ret t
  | inl e => raise (ReadError e)
  end.

(** The [param_units] property: the bundled JSON file, loaded on first
    use and kept in [_param_units]. *)
Definition param_units : M value (gmap string string) :=
  this <- get_self ;;
  match _param_units this with
  | Some d => ret d
  | None =>
      log ELoadUnits ;;;
      put_self {| _param_units := Some (units_json rt);
                  _table := _table this;
                  _cache_planet := _cache_planet this;
                  _cache_star := _cache_star this |} ;;;
      ret (units_json rt)
  end.

(** [self._table = t] *)
Definition set_table (t : QTable value) : M value unit :=
  this <- get_self ;;
  put_self {| _param_units := _param_units this; _table := Some t;
              _cache_planet := _cache_planet this;
              _cache_star := _cache_star this |}.

(** [self._cache_planet = k] *)
Definition set_cache_planet (k : PyString) : M value unit :=
  this <- get_self ;;
  put_self {| _param_units := _param_units this; _table := _table this;
              _cache_planet := Some k; _cache_star := _cache_star this |}.

(** [self._cache_star = k] *)
Definition set_cache_star (k : PyString) : M value unit :=
  this <- get_self ;;
  put_self {| _param_units := _param_units this; _table := _table this;
              _cache_planet := _cache_planet this; _cache_star := Some k |}.

Definition EXOPLANETS_CSV_URL : string :=
  "http://exoplanetarchive.ipac.caltech.edu/cgi-bin/nstedAPI/nph-nstedAPI?table=exoplanets".

(** [quote(name)] on a string object. *)
Definition url_quote (name : PyString) : M value string :=
  or_raise (quote (chars name)) UnicodeEncodeError.

(** [t['sky_coord'] = SkyCoord(ra=t['ra'] * u.deg, dec=t['dec'] * u.deg)] *)
Definition add_sky_coord (t : Table value) : M value (Table value) :=
  ra_col <- or_raise (getitem t "ra") (KeyError "ra") ;;
  ra_q <- or_raise (mul_unit (is_numeric rt) ra_col deg) TypeError ;;
  dec_col <- or_raise (getitem t "dec") (KeyError "dec") ;;
  dec_q <- or_raise (mul_unit (is_numeric rt) dec_col deg) TypeError ;;
  if SkyCoord_accepts rt ra_q dec_q
  then ret (setitem t "sky_coord" (Mixin {| ra := ra_q; dec := dec_q |}))
  else raise CoordinateError.

(** The loop assigning units, over the column names taken at its start:
<<
    for col in exoplanets_table.colnames:
        if col in self.param_units:
            if hasattr(u, self.param_units[col]):
                exoplanets_table[col].unit = u.Unit(self.param_units[col])
>> *)
Fixpoint assign_units (names : list string) (t : Table value)
  : M value (Table value) :=
  match names with
  | [] => ret t
  | col :: names' =>
      units <- param_units ;;
      match units !! col with
      | Some unit_name =>
          if hasattr_u rt unit_name
          then
            if Unit_accepts rt unit_name
            then assign_units names' (set_unit t col (MkUnit unit_name))
            else raise ValueError
          else assign_units names' t
      | None => assign_units names' t
      end
  end.

(** [query_planet(self, planet_name, cache, show_progress, table_path,
    all_columns)]; [table_path = None] asks for a download. *)
Definition query_planet (planet_name : list N) (cache show_progress : bool)
    (table_path : option string) (all_columns : bool)
  : M value (option (QTable value)) :=
  planet_name <- str_format_quoted (strip planet_name) ;;
  quoted <- url_quote planet_name ;;
  let EXOPLANET_URL_PLANET :=
    (EXOPLANETS_CSV_URL ++ "&where=pl_name=" ++ quoted)%string in
  this <- get_self ;;
  if is_not_None (_table this) && is_ (_cache_planet this) planet_name && cache
  then ret (_table this)
  else
    table_path <-
      match table_path with
      | None =>
          let exoplanets_url :=
            if all_columns then (EXOPLANET_URL_PLANET ++ "&select=*")%string
            else EXOPLANET_URL_PLANET in
          call_download_file exoplanets_url cache show_progress 120
      | Some path => ret path
      end ;;
    exoplanets_table <- call_ascii_read table_path false ;;
    exoplanets_table <- add_sky_coord exoplanets_table ;;
    exoplanets_table <- assign_units (colnames exoplanets_table) exoplanets_table ;;
    table <- new_QTable exoplanets_table ;;
    set_table table ;;;
    set_cache_planet planet_name ;;;
    this <- get_self ;;
    ret (_table this).

(** [query_star(self, host_name, cache, show_progress, table_path,
    all_columns)] *)
Definition query_star (host_name : list N) (cache show_progress : bool)
    (table_path : option string) (all_columns : bool)
  : M value (option (QTable value)) :=
  host_name <- str_format_quoted (strip host_name) ;;
  quoted <- url_quote host_name ;;
  let EXOPLANET_URL_PLANET :=
    (EXOPLANETS_CSV_URL ++ "&where=pl_hostname=" ++ quoted)%string in
  this <- get_self ;;
  if is_not_None (_table this) && is_ (_cache_star this) host_name && cache
  then ret (_table this)
  else
    table_path <-
      match table_path with
      | None =>
          let exoplanets_url :=
            if all_columns then (EXOPLANET_URL_PLANET ++ "&select=*")%string
            else EXOPLANET_URL_PLANET in
          call_download_file exoplanets_url cache show_progress 120
      | Some path => ret path
      end ;;
    exoplanets_table <- call_ascii_read table_path false ;;
    exoplanets_table <- add_sky_coord exoplanets_table ;;
    exoplanets_table <- assign_units (colnames exoplanets_table) exoplanets_table ;;
    table <- new_QTable exoplanets_table ;;
    set_table table ;;;
    set_cache_star host_name ;;;
    this <- get_self ;;
    ret (_table this).

(** [get_confirmed_planets_table(self, table_path, all_columns, cache,
    show_progress)] *)
Definition get_confirmed_planets_table (table_path : option string)
    (all_columns cache show_progress : bool)
  : M value (option (QTable value)) :=
  this <- get_self ;;
  if is_not_None (_table this)
  then ret (_table this)
  else
    table_path <-
      match table_path with
      | None =>
          let exoplanets_url :=
            if all_columns then (EXOPLANETS_CSV_URL ++ "&select=*")%string
            else EXOPLANETS_CSV_URL in
          call_download_file exoplanets_url cache show_progress 120
      | Some path => ret path
      end ;;
    exoplanets_table <- call_ascii_read table_path false ;;
    exoplanets_table <- add_sky_coord exoplanets_table ;;
    exoplanets_table <- assign_units (colnames exoplanets_table) exoplanets_table ;;
    table <- new_QTable exoplanets_table ;;
    set_table table ;;;
    this <- get_self ;;
    ret (_table this).

End Client.

(** ** Notions used in the statements *)

Section Notions.
Context {value : Type} (rt : runtime value).

(** The block the three methods share (lines 84-103, 145-164 and
    200-219): obtain the file, read it, add the coordinate column, assign
    the units. *)
Definition load_table (url : string) (cache show_progress : bool)
    (table_path : option string) (all_columns : bool)
  : M value (Table value) :=
  table_path <-
    match table_path with
    | None =>
        call_download_file rt
          (if all_columns then (url ++ "&select=*")%string else url)
          cache show_progress 120
    | Some path => ret path
    end ;;
  exoplanets_table <- call_ascii_read rt table_path false ;;
  exoplanets_table <- add_sky_coord rt exoplanets_table ;;
  assign_units rt (colnames exoplanets_table) exoplanets_table.

(** The I/O call a method starts with when it does not answer from
    [_table]. *)
Definition first_io (url : string) (cache show_progress : bool)
    (table_path : option string) (all_columns : bool) : event :=
  match table_path with
  | None =>
      EDownload (if all_columns then (url ++ "&select=*")%string else url)
        cache show_progress 120
  | Some path => ERead path false
  end.

Definition planet_url (quoted : string) : string :=
  (EXOPLANETS_CSV_URL ++ "&where=pl_name=" ++ quoted)%string.

Definition star_url (quoted : string) : string :=
  (EXOPLANETS_CSV_URL ++ "&where=pl_hostname=" ++ quoted)%string.

(** The string object a query builds for its name in machine [m]. *)
Definition key_of (m : machine value) (name : list N) : PyString :=
  {| oid := next_id m; chars := format_quoted (strip name) |}.

(** The tests of lines 80 and 141. *)
Definition planet_test (m : machine value) (name : list N) (cache : bool)
  : bool :=
  is_not_None (_table (self m))
  && is_ (_cache_planet (self m)) (key_of m name) && cache.

Definition star_test (m : machine value) (name : list N) (cache : bool)
  : bool :=
  is_not_None (_table (self m))
  && is_ (_cache_star (self m)) (key_of m name) && cache.

(** A call answered from the cache: it returns the table that was stored
    when it started, and performs no I/O. *)
Definition cache_hit (m : machine value)
    (r : outcome (option (QTable value)) * machine value) : Prop :=
  exists t, _table (self m) = Some t
            /\ fst r = Return (Some t) /\ trace (snd r) = trace m.

(** The machine after one object allocation. *)
Definition alloc (m : machine value) : machine value :=
  {| self := self m; next_id := S (next_id m); trace := trace m |}.

(** The machine after some I/O calls. *)
Definition logged (es : list event) (m : machine value) : machine value :=
  {| self := self m; next_id := next_id m; trace := trace m ++ es |}.

(** The mapping [param_units] answers with in machine [m]. *)
Definition units_of (m : machine value) : gmap string string :=
  match _param_units (self m) with
  | Some d => d
  | None => units_json rt
  end.

(** The machine after [param_units] has been read. *)
Definition units_loaded (m : machine value) : machine value :=
  match _param_units (self m) with
  | Some _ => m
  | None =>
      {| self := {| _param_units := Some (units_json rt);
                    _table := _table (self m);
                    _cache_planet := _cache_planet (self m);
                    _cache_star := _cache_star (self m) |};
         next_id := next_id m;
         trace := trace m ++ [ELoadUnits] |}
  end.

(** The unit the loop gives the column called [col], if any. *)
Definition unit_for (units : gmap string string) (col : string)
  : option Unit :=
  match units !! col with
  | Some unit_name =>
      if hasattr_u rt unit_name then Some (MkUnit unit_name) else None
  | None => None
  end.

(** Whether line 103 raises at the column called [col]: its unit name
    passes [hasattr] and [u.Unit] refuses it. *)
Definition unit_refused (units : gmap string string) (col : string) : bool :=
  match units !! col with
  | Some unit_name => hasattr_u rt unit_name && negb (Unit_accepts rt unit_name)
  | None => false
  end.

(** No column of these raises in the loop. *)
Definition units_accepted (units : gmap string string) (names : list string)
  : bool :=
  forallb (fun col => negb (unit_refused units col)) names.

(** The table the loop leaves, as a function of the mapping; [None] when
    it raises [ValueError]. *)
Fixpoint annotate (units : gmap string string) (names : list string)
    (t : Table value) : option (Table value) :=
  match names with
  | [] => Some t
  | col :: names' =>
      if unit_refused units col then None
      else
        match unit_for units col with
        | Some u => annotate units names' (set_unit t col u)
        | None => annotate units names' t
        end
  end.

(** The coordinate lines 95-96 build from a table, or the exception they
    raise: the lookups and products in the order Python evaluates
    them. *)
Definition sky_coord_of (t : Table value) : exn + SkyCoord value :=
  match getitem t "ra" with
  | None => inl (KeyError "ra")
  | Some ra_col =>
      match mul_unit (is_numeric rt) ra_col deg with
      | None => inl TypeError
      | Some ra_q =>
          match getitem t "dec" with
          | None => inl (KeyError "dec")
          | Some dec_col =>
              match mul_unit (is_numeric rt) dec_col deg with
              | None => inl TypeError
              | Some dec_q =>
                  if SkyCoord_accepts rt ra_q dec_q
                  then inr {| ra := ra_q; dec := dec_q |}
                  else inl CoordinateError
              end
          end
      end
  end.

(** The path [load_table] reads: the caller's, or the downloaded one. *)
Definition obtain_path (m : machine value) (url : string)
    (cache show_progress : bool) (table_path : option string)
    (all_columns : bool) : fetch_error + string :=
  match table_path with
  | Some path => inr path
  | None =>
      download_file rt (trace m)
        (if all_columns then (url ++ "&select=*")%string else url)
        cache show_progress 120
  end.

(** The download calls [load_table] makes. *)
Definition download_events (url : string) (cache show_progress : bool)
    (table_path : option string) (all_columns : bool) : list event :=
  match table_path with
  | Some _ => []
  | None =>
      [EDownload (if all_columns then (url ++ "&select=*")%string else url)
         cache show_progress 120]
  end.

(** The table once the coordinate column is in. *)
Definition with_sky_coord (t : Table value) (c : SkyCoord value)
  : Table value :=
  setitem t "sky_coord" (Mixin c).

(** The machine after [QTable(t)] has been stored in [_table], with the
    two keys as given. *)
Definition stored (t : Table value) (planet star : option PyString)
    (m : machine value) : machine value :=
  {| self := {| _param_units := _param_units (self m);
                _table := Some {| tid := next_id m; cols := QTable_columns t |};
                _cache_planet := planet;
                _cache_star := star |};
     next_id := S (next_id m);
     trace := trace m |}.

Definition is_download (e : event) : bool :=
  match e with
  | EDownload _ _ _ _ => true
  | _ => false
  end.

(** From [m] to [m'] the I/O was [first] and then no download, nothing
    was allocated, and [_table] and both keys were left alone. *)
Definition io_only (first : event) (m m' : machine value) : Prop :=
  (exists ext, trace m' = trace m ++ first :: ext
               /\ forallb (fun e => negb (is_download e)) ext = true)
  /\ next_id m' = next_id m
  /\ _table (self m') = _table (self m)
  /\ _cache_planet (self m') = _cache_planet (self m)
  /\ _cache_star (self m') = _cache_star (self m).

(** The three methods behind one name, to state what they share. *)
Inductive operation :=
  | ByPlanet (planet_name : list N)
  | ByStar (host_name : list N)
  | AllPlanets.

Definition call (op : operation) (cache show_progress : bool)
    (table_path : option string) (all_columns : bool)
  : M value (option (QTable value)) :=
  match op with
  | ByPlanet name => query_planet rt name cache show_progress table_path all_columns
  | ByStar name => query_star rt name cache show_progress table_path all_columns
  | AllPlanets =>
      get_confirmed_planets_table rt table_path all_columns cache show_progress
  end.

(** The URL a method builds, before any [&select=*]; [None] when
    [quote] raises. *)
Definition op_url (op : operation) : option string :=
  match op with
  | ByPlanet name => option_map planet_url (quote (format_quoted (strip name)))
  | ByStar name => option_map star_url (quote (format_quoted (strip name)))
  | AllPlanets => Some EXOPLANETS_CSV_URL
  end.

(** The test a method makes before it loads anything (lines 80, 141
    and 196). *)
Definition op_test (op : operation) (m : machine value) (cache : bool) : bool :=
  match op with
  | ByPlanet name => planet_test m name cache
  | ByStar name => star_test m name cache
  | AllPlanets => is_not_None (_table (self m))
  end.

(** The machine when that test is made. *)
Definition op_start (op : operation) (m : machine value) : machine value :=
  match op with
  | AllPlanets => m
  | _ => alloc m
  end.

(** The machine a method leaves after loading [t]: [m] is the machine at
    the call, [m'] the one [load_table] left. *)
Definition op_store (op : operation) (m : machine value) (t : Table value)
    (m' : machine value) : machine value :=
  match op with
  | ByPlanet name => stored t (Some (key_of m name)) (_cache_star (self m')) m'
  | ByStar name => stored t (_cache_planet (self m')) (Some (key_of m name)) m'
  | AllPlanets => stored t (_cache_planet (self m')) (_cache_star (self m')) m'
  end.

(** The call does not answer from the cache, obtains a file and
    [ascii.read] parses it as [p]. *)
Definition reads (op : operation) (cache show_progress : bool)
    (table_path : option string) (all_columns : bool) (m : machine value)
    (p : Table value) : Prop :=
  exists url path,
    op_url op = Some url
    /\ op_test op m cache = false
    /\ obtain_path (op_start op m) url cache show_progress table_path
         all_columns = inr path
    /\ ascii_read rt
         (trace m ++ download_events url cache show_progress table_path
                       all_columns)
         path false = inr p.

(** Objects are older than the allocator's next identity. *)
Definition older (n : nat) (i : option nat) : bool :=
  match i with
  | Some i => Nat.ltb i n
  | None => true
  end.

(** Machines a run can reach keep every stored object below [next_id]. *)
Definition wf (m : machine value) : bool :=
  older (next_id m) (option_map oid (_cache_planet (self m)))
  && older (next_id m) (option_map oid (_cache_star (self m)))
  && older (next_id m) (option_map tid (_table (self m))).

End Notions.

(** A freshly started interpreter holding [NasaExoplanetArchive =
    NasaExoplanetArchiveClass()]. *)
Definition boot {value : Type} : machine value :=
  {| self := __init__; next_id := 0; trace := [] |}.

(** ** A sample world *)

Module Sample.

Open Scope Q_scope.

(** One row, for Kepler-7 b. *)
Definition kepler7 : parsed_table Q :=
  [("pl_orbper", [4885525 # 1000000]); ("pl_radj", [1622 # 1000]);
   ("ra", [290]); ("dec", [44]); ("st_teff", [5933])].

Definition units : gmap string string :=
  {[ "pl_orbper" := "day"; "pl_radj" := "jupiterRad"; "st_teff" := "K";
     "ra" := "deg"; "dec" := "deg" ]}.

(** An astropy without [jupiterRad]; the archive answers, and local
    files hold the same table. *)
Definition world : runtime Q :=
  {| units_json := units;
     download_file := fun _ url _ _ _ => inr ("/cache/" ++ url)%string;
     ascii_read := fun _ _ _ => inr (Table_of_parsed kepler7);
     hasattr_u := fun n => (String.eqb n "day" || String.eqb n "deg"
                            || String.eqb n "K")%string;
     Unit_accepts := fun n => (String.eqb n "day" || String.eqb n "deg"
                               || String.eqb n "K")%string;
     is_numeric := fun _ => true;
     SkyCoord_accepts := fun _ _ => true;
     QTable_accepts := fun _ => true |}.

(** The same with the network down. *)
Definition offline : runtime Q :=
  {| units_json := units;
     download_file := fun _ _ _ _ _ => inl TimedOut;
     ascii_read := ascii_read world;
     hasattr_u := hasattr_u world;
     Unit_accepts := Unit_accepts world;
     is_numeric := is_numeric world;
     SkyCoord_accepts := SkyCoord_accepts world;
     QTable_accepts := QTable_accepts world |}.

(** The same with files that do not parse. *)
Definition garbled : runtime Q :=
  {| units_json := units;
     download_file := download_file world;
     ascii_read := fun _ _ _ => inl Malformed;
     hasattr_u := hasattr_u world;
     Unit_accepts := Unit_accepts world;
     is_numeric := is_numeric world;
     SkyCoord_accepts := SkyCoord_accepts world;
     QTable_accepts := QTable_accepts world |}.

(** The table a query returns in [world]. *)
Definition kepler7_columns : Table Q :=
  [ {| col_name := "pl_orbper"; col_data := Values [4885525 # 1000000];
       col_unit := Some (MkUnit "day") |};
    {| col_name := "pl_radj"; col_data := Values [1622 # 1000];
       col_unit := None |};
    {| col_name := "ra"; col_data := Values [290];
       col_unit := Some (MkUnit "deg") |};
    {| col_name := "dec"; col_data := Values [44];
       col_unit := Some (MkUnit "deg") |};
    {| col_name := "st_teff"; col_data := Values [5933];
       col_unit := Some (MkUnit "K") |};
    {| col_name := "sky_coord";
       col_data := Mixin {| ra := {| q_value := [290]; q_unit := MkUnit "deg" |};
                            dec := {| q_value := [44]; q_unit := MkUnit "deg" |} |};
       col_unit := None |} ].

Definition kepler7b : list N := lit "Kepler-7 b".
Definition kepler7_host : list N := lit "Kepler-7".

(** The machine after [query_planet("Kepler-7 b", table_path=...)]. *)
Definition after_planet : machine Q :=
  snd (query_planet world kepler7b true true (Some "kepler7.csv"%string)
         false boot).

(** The machine after [get_confirmed_planets_table()]. *)
Definition after_all : machine Q :=
  snd (get_confirmed_planets_table world None false true true boot).

End Sample.

(** ** Reading an escaped value back

    What an HTTP server does with a query value: every [%XX] becomes the
    byte [XX], every other character its own byte. *)

Module Unquote.

Definition hexval (a : ascii) : option N :=
  let n := N_of_ascii a in
  if (0x30 <=? n) && (n <=? 0x39) then Some (n - 0x30)
  else if (0x41 <=? n) && (n <=? 0x46) then Some (n - 0x41 + 10)
  else if (0x61 <=? n) && (n <=? 0x66) then Some (n - 0x61 + 10)
  else None.

Fixpoint percent_decode (s : string) : option (list N) :=
  match s with
  | EmptyString => Some []
  | String "%" (String h (String l s')) =>
      match hexval h, hexval l, percent_decode s' with
      | Some h, Some l, Some bs => Some (16 * h + l :: bs)
      | _, _, _ => None
      end
  | String "%" _ => None
  | String a s' =>
      match percent_decode s' with
      | Some bs => Some (N_of_ascii a :: bs)
      | None => None
      end
  end.

(** Characters an escaped value is made of. *)
Definition url_char (a : ascii) : bool :=
  let n := N_of_ascii a in
  safe_byte n || (n =? 0x25).

Fixpoint all_chars (p : ascii -> bool) (s : string) : bool :=
  match s with
  | EmptyString => true
  | String a s' => p a && all_chars p s'
  end.

(** [needle in hay] *)
Fixpoint contains (needle hay : string) : bool :=
  String.prefix needle hay
  || match hay with
     | EmptyString => false
     | String _ hay' => contains needle hay'
     end.

End Unquote.
Import Unquote.

(** ** Sessions

    A client is used call after call; a session is the machine a list of
    calls leaves, starting from a new client. *)

Record request :=
  { req_op : operation;
    req_cache : bool;
    req_show_progress : bool;
    req_table_path : option string;
    req_all_columns : bool }.

Section Sessions.
Context {value : Type} (rt : runtime value).

Definition serve (m : machine value) (r : request) : machine value :=
  snd (call rt (req_op r) (req_cache r) (req_show_progress r)
         (req_table_path r) (req_all_columns r) m).

Definition session (rs : list request) : machine value :=
  fold_left serve rs boot.

Definition is_load_units (e : event) : bool :=
  match e with
  | ELoadUnits => true
  | _ => false
  end.

(** How many times the units file was opened. *)
Definition units_reads (es : list event) : nat :=
  List.length (List.filter is_load_units es).

(** From [m] to [m'] the units file was opened only to fill an empty
    [_param_units], which then holds its content. *)
Definition units_step (m m' : machine value) : Prop :=
  (_param_units (self m') = _param_units (self m)
   /\ units_reads (trace m') = units_reads (trace m))
  \/ (_param_units (self m) = None
      /\ _param_units (self m') = Some (units_json rt)
      /\ units_reads (trace m') = S (units_reads (trace m))).

End Sessions.

(** ** The entry points of [setup.py] (lines 88-99) *)

Module Setup.

(** [sep.join(hook)] for a pair. *)
Definition join2 (sep : string) (hook : string * string) : string :=
  (fst hook ++ sep ++ snd hook)%string.

Definition hooks : list (string * string) :=
  [("prereleaser", "middle"); ("releaser", "middle");
   ("postreleaser", "before"); ("postreleaser", "middle")]%string.

(** The first loop: one entry per [zest.releaser] hook. *)
Definition add_hook (entry_points : gmap string (list string))
    (hook : string * string) : gmap string (list string) :=
  let hook_ep := ("zest.releaser." ++ join2 "." hook)%string in
  let hook_name := ("astroquery.release." ++ join2 "." hook)%string in
  let hook_func := ("astropy.utils.release:" ++ join2 "_" hook)%string in
  <[hook_ep := [(hook_name ++ " = " ++ hook_func)%string]]> entry_points.

Definition hook_entry_points : gmap string (list string) :=
  fold_left add_hook hooks ∅.

(** The second loop, over [conf.items('entry_points')]:
    [entry_points['console_scripts'].append('{0} = {1}'.format(...))]. *)
Fixpoint add_console_scripts (entry_point_list : list (string * string))
    (entry_points : gmap string (list string))
  : exn + gmap string (list string) :=
  match entry_point_list with
  | [] => inr entry_points
  | entry_point :: rest =>
      match entry_points !! "console_scripts"%string with
      | None => inl (KeyError "console_scripts")
      | Some scripts =>
          add_console_scripts rest
            (<["console_scripts"%string :=
                 scripts ++ [(fst entry_point ++ " = " ++ snd entry_point)%string]]>
               entry_points)
      end
  end.

(** What [setup(...)] gets as [entry_points], or the exception raised on
    the way. *)
Definition entry_points (entry_point_list : list (string * string))
  : exn + gmap string (list string) :=
  add_console_scripts entry_point_list hook_entry_points.

End Setup.

(** ** More sample worlds *)

Module Worlds.
Import Sample.

Open Scope Q_scope.

(** [world] with another file behind every path. *)
Definition reading (t : Table Q) : runtime Q :=
  {| units_json := units;
     download_file := download_file world;
     ascii_read := fun _ _ _ => inr t;
     hasattr_u := hasattr_u world;
     Unit_accepts := Unit_accepts world;
     is_numeric := is_numeric world;
     SkyCoord_accepts := SkyCoord_accepts world;
     QTable_accepts := QTable_accepts world |}.

(** A file with a column outside the units mapping and a column already
    called [sky_coord]. *)
Definition catalog : Table Q :=
  Table_of_parsed
    [("pl_pnum", [1]); ("sky_coord", [0]); ("ra", [290]); ("dec", [44])].

Definition catalog_world : runtime Q := reading catalog.

(** A file that declares units, as ECSV does: the radius in metres. *)
Definition with_units : Table Q :=
  [ {| col_name := "pl_radj"; col_data := Values [115962684];
       col_unit := Some (MkUnit "m") |};
    {| col_name := "pl_orbper"; col_data := Values [4885525 # 1000000];
       col_unit := Some (MkUnit "h") |};
    {| col_name := "ra"; col_data := Values [290]; col_unit := None |};
    {| col_name := "dec"; col_data := Values [44]; col_unit := None |} ].

Definition ecsv_world : runtime Q := reading with_units.

(** A file without [ra], and one without [dec]. *)
Definition no_ra : runtime Q :=
  reading (Table_of_parsed [("pl_orbper", [4885525 # 1000000]);
                            ("dec", [44])]).

Definition no_dec : runtime Q :=
  reading (Table_of_parsed [("pl_orbper", [4885525 # 1000000]);
                            ("ra", [290])]).

(** A file whose [ra] column is text, with no [dec] column.  Cells are
    opaque, so the text cell is the one [is_numeric] refuses. *)
Definition text_ra : runtime Q :=
  {| units_json := units;
     download_file := download_file world;
     ascii_read := fun _ _ _ =>
       inr (Table_of_parsed [("ra", [19 # 1]); ("pl_orbper", [5])]);
     hasattr_u := hasattr_u world;
     Unit_accepts := Unit_accepts world;
     is_numeric := fun vs =>
       match vs with [v] => negb (Qeq_bool v 19) | _ => true end;
     SkyCoord_accepts := SkyCoord_accepts world;
     QTable_accepts := QTable_accepts world |}.

(** A units file naming an attribute of [astropy.units] that is no
    unit. *)
Definition quantity_world : runtime Q :=
  {| units_json := {[ "pl_orbper"%string := "Quantity"%string ]};
     download_file := download_file world;
     ascii_read := ascii_read world;
     hasattr_u := fun n => (String.eqb n "Quantity" || hasattr_u world n)%string;
     Unit_accepts := Unit_accepts world;
     is_numeric := is_numeric world;
     SkyCoord_accepts := SkyCoord_accepts world;
     QTable_accepts := QTable_accepts world |}.

(** A name with a lone surrogate in it. *)
Definition broken_name : list N := lit "Kepler" ++ [0xD800%N].

(** A session of three calls. *)
Definition three_calls : list request :=
  [ {| req_op := ByPlanet kepler7b; req_cache := true;
       req_show_progress := true; req_table_path := None;
       req_all_columns := false |};
    {| req_op := ByStar kepler7_host; req_cache := true;
       req_show_progress := false; req_table_path := Some "kepler7.csv"%string;
       req_all_columns := true |};
    {| req_op := AllPlanets; req_cache := false;
       req_show_progress := true; req_table_path := None;
       req_all_columns := false |} ].

End Worlds.

(** * Text lemmas *)

Section StripLemmas.

Lemma lstrip_split (s : list N) :
  exists l, s = l ++ lstrip s /\ Forall (fun c => isspace c = true) l.
Proof.
  induction s as [|c s [l [Hs Hl]]]; simpl.
  - exists []. split; [reflexivity | constructor].
  - destruct (isspace c) eqn:Hc.
    + exists (c :: l). split; [simpl; rewrite <- Hs; reflexivity | constructor; assumption].
    + exists []. split; [reflexivity | constructor].
Qed.

Lemma lstrip_head (s : list N) (c : N) :
  head (lstrip s) = Some c -> isspace c = false.
Proof.
  induction s as [|a s IH]; simpl; [discriminate|].
  destruct (isspace a) eqn:Ha; [exact IH|].
  simpl. intros [= <-]. exact Ha.
Qed.

Lemma rstrip_split (s : list N) :
  exists r, s = rstrip s ++ r /\ Forall (fun c => isspace c = true) r.
Proof.
  induction s as [|c s [r [Hs Hr]]]; simpl.
  - exists []. split; [reflexivity | constructor].
  - destruct (rstrip s) as [|a t] eqn:Ht.
    + destruct (isspace c) eqn:Hc.
      * exists (c :: r). simpl in Hs. subst s.
        split; [reflexivity | constructor; assumption].
      * exists r. simpl in *. subst s. split; [reflexivity | assumption].
    + exists r. split; [simpl in *; congruence | assumption].
Qed.

Lemma rstrip_last (s : list N) (c : N) :
  last (rstrip s) = Some c -> isspace c = false.
Proof.
  induction s as [|a s IH]; simpl; [discriminate|].
  destruct (rstrip s) as [|b t] eqn:Ht.
  - destruct (isspace a) eqn:Ha; simpl; [discriminate|].
    intros [= <-]. exact Ha.
  - intros H. apply IH. exact H.
Qed.

Lemma rstrip_head (s : list N) (c : N) :
  head s = Some c -> isspace c = false -> head (rstrip s) = Some c.
Proof.
  destruct s as [|a s]; simpl; [discriminate|].
  intros [= ->] Hc. destruct (rstrip s); [rewrite Hc|]; reflexivity.
Qed.

Lemma rstrip_nil_head (s : list N) (c : N) :
  head (rstrip s) = Some c -> head s = Some c.
Proof.
  destruct s as [|a s]; simpl; [discriminate|].
  destruct (rstrip s); [destruct (isspace a)|]; simpl; congruence.
Qed.

(** [strip] removes a run of whitespace at each end, and leaves none. *)
Lemma strip_spec (s : list N) :
  (exists l r, s = l ++ strip s ++ r
               /\ Forall (fun c => isspace c = true) l
               /\ Forall (fun c => isspace c = true) r)
  /\ (forall c, head (strip s) = Some c -> isspace c = false)
  /\ (forall c, last (strip s) = Some c -> isspace c = false).
Proof.
  unfold strip. repeat split.
  - destruct (lstrip_split s) as [l [Hl Fl]].
    destruct (rstrip_split (lstrip s)) as [r [Hr Fr]].
    exists l, r. split; [congruence | split; assumption].
  - intros c H. apply (lstrip_head s). apply rstrip_nil_head. exact H.
  - intros c. apply rstrip_last.
Qed.

End StripLemmas.

Section QuoteLemmas.

Lemma utf8_encode_cp_bytes (c : N) (bs : list N) :
  utf8_encode_cp c = Some bs -> Forall (fun b => b < 256) bs.
Proof.
  unfold utf8_encode_cp.
  destruct (N.ltb_spec c 0x80).
  { intros [= <-]. repeat constructor. lia. }
  destruct (N.ltb_spec c 0x800).
  { intros [= <-].
    assert (c / 64 < 32) by (apply N.Div0.div_lt_upper_bound; lia).
    assert (c mod 64 < 64) by (apply N.mod_lt; lia).
    repeat constructor; lia. }
  destruct (N.ltb_spec c 0x10000).
  { destruct ((0xD800 <=? c) && (c <=? 0xDFFF)); [discriminate|].
    intros [= <-].
    assert (c / 4096 < 16) by (apply N.Div0.div_lt_upper_bound; lia).
    assert ((c / 64) mod 64 < 64) by (apply N.mod_lt; lia).
    assert (c mod 64 < 64) by (apply N.mod_lt; lia).
    repeat constructor; lia. }
  destruct (N.ltb_spec c 0x110000); [|discriminate].
  intros [= <-].
  assert (c / 262144 < 5) by (apply N.Div0.div_lt_upper_bound; lia).
  assert ((c / 4096) mod 64 < 64) by (apply N.mod_lt; lia).
  assert ((c / 64) mod 64 < 64) by (apply N.mod_lt; lia).
  assert (c mod 64 < 64) by (apply N.mod_lt; lia).
  repeat constructor; lia.
Qed.

Lemma utf8_encode_bytes (s bs : list N) :
  utf8_encode s = Some bs -> Forall (fun b => b < 256) bs.
Proof.
  revert bs. induction s as [|c s IH]; simpl; intros bs.
  - intros [= <-]. constructor.
  - destruct (utf8_encode_cp c) as [b|] eqn:Hc; [|discriminate].
    destruct (utf8_encode s) as [bs'|]; [|discriminate].
    intros [= <-]. apply Forall_app. split.
    + eapply utf8_encode_cp_bytes; eassumption.
    + apply IH. reflexivity.
Qed.

Lemma safe_byte_lt (b : N) : safe_byte b = true -> b < 128 /\ b <> 0x25.
Proof.
  unfold safe_byte, always_safe.
  rewrite !orb_true_iff, !andb_true_iff, !N.leb_le, !N.eqb_eq. lia.
Qed.

Lemma percent_decode_plain (a : ascii) (s : string) :
  a <> "%"%char ->
  percent_decode (String a s)
  = match percent_decode s with
    | Some bs => Some (N_of_ascii a :: bs)
    | None => None
    end.
Proof.
  intros Ha.
  destruct a as [[] [] [] [] [] [] [] []]; try reflexivity.
  contradiction Ha; reflexivity.
Qed.

Lemma hexval_hexdigit (n : N) : n < 16 -> hexval (hexdigit n) = Some n.
Proof.
  intros Hn. unfold hexval, hexdigit. cbv zeta.
  destruct (N.ltb_spec n 10) as [Hlt|Hge]; rewrite N_ascii_embedding by lia.
  - assert (Hdigit : (0x30 <=? 0x30 + n) && (0x30 + n <=? 0x39) = true)
      by (rewrite andb_true_iff, !N.leb_le; lia).
    rewrite Hdigit. f_equal. lia.
  - assert (Hdigit : (0x30 <=? 0x41 + (n - 10)) && (0x41 + (n - 10) <=? 0x39)
                     = false)
      by (rewrite andb_false_iff, !N.leb_gt; lia).
    assert (Hupper : (0x41 <=? 0x41 + (n - 10)) && (0x41 + (n - 10) <=? 0x46)
                     = true)
      by (rewrite andb_true_iff, !N.leb_le; lia).
    rewrite Hdigit, Hupper. f_equal. lia.
Qed.

Lemma percent_decode_quote_byte (b : N) (s : string) :
  b < 256 ->
  percent_decode (quote_byte b ++ s)
  = match percent_decode s with
    | Some bs => Some (b :: bs)
    | None => None
    end.
Proof.
  intros Hb. unfold quote_byte.
  destruct (safe_byte b) eqn:Hs.
  - apply safe_byte_lt in Hs as [Hlt Hne].
    change (String (ascii_of_N b) "" ++ s)%string with (String (ascii_of_N b) s).
    rewrite percent_decode_plain.
    + rewrite N_ascii_embedding by lia. reflexivity.
    + intros E. apply (f_equal N_of_ascii) in E.
      rewrite N_ascii_embedding in E by lia. apply Hne. exact E.
  - change (percent_decode
              (String "%" (String (hexdigit (b / 16))
                             (String (hexdigit (b mod 16)) s)))
            = match percent_decode s with
              | Some bs => Some (b :: bs)
              | None => None
              end).
    cbn [percent_decode].
    assert (b / 16 < 16) by (apply N.Div0.div_lt_upper_bound; lia).
    assert (b mod 16 < 16) by (apply N.mod_lt; lia).
    rewrite !hexval_hexdigit by assumption.
    destruct (percent_decode s); [|reflexivity].
    f_equal. f_equal. symmetry. apply N.Div0.div_mod.
Qed.

Lemma percent_decode_quote_from_bytes (bs : list N) :
  Forall (fun b => b < 256) bs ->
  percent_decode (quote_from_bytes bs) = Some bs.
Proof.
  induction 1 as [|b bs Hb _ IH]; simpl; [reflexivity|].
  rewrite percent_decode_quote_byte by assumption. rewrite IH. reflexivity.
Qed.

(** Decoding an escaped text gives back its UTF-8 bytes. *)
Lemma quote_decodes (s : list N) (q : string) :
  quote s = Some q ->
  exists bs, utf8_encode s = Some bs /\ percent_decode q = Some bs.
Proof.
  unfold quote. destruct (utf8_encode s) as [bs|] eqn:Hs; [|discriminate].
  intros [= <-]. exists bs. split; [reflexivity|].
  apply percent_decode_quote_from_bytes.
  eapply utf8_encode_bytes; eassumption.
Qed.

Lemma all_chars_app (p : ascii -> bool) (s t : string) :
  all_chars p (s ++ t) = all_chars p s && all_chars p t.
Proof.
  induction s as [|a s IH]; simpl; [reflexivity|].
  rewrite IH. apply andb_assoc.
Qed.

Lemma url_char_hexdigit (n : N) : n < 16 -> url_char (hexdigit n) = true.
Proof.
  intros Hn. unfold url_char, hexdigit. cbv zeta.
  destruct (N.ltb_spec n 10) as [Hlt|Hge]; rewrite N_ascii_embedding by lia;
    unfold safe_byte, always_safe;
    rewrite !orb_true_iff, !andb_true_iff, !N.leb_le, !N.eqb_eq; lia.
Qed.

Lemma quote_byte_chars (b : N) :
  b < 256 -> all_chars url_char (quote_byte b) = true.
Proof.
  intros Hb. unfold quote_byte.
  destruct (safe_byte b) eqn:Hs; simpl.
  - unfold url_char. rewrite N_ascii_embedding by lia. rewrite Hs. reflexivity.
  - assert (b / 16 < 16) by (apply N.Div0.div_lt_upper_bound; lia).
    assert (b mod 16 < 16) by (apply N.mod_lt; lia).
    rewrite !url_char_hexdigit by assumption. reflexivity.
Qed.

(** An escaped text holds nothing but unreserved characters, [/] and
    [%XX] escapes. *)
Lemma quote_chars (s : list N) (q : string) :
  quote s = Some q -> all_chars url_char q = true.
Proof.
  unfold quote. destruct (utf8_encode s) as [bs|] eqn:Hs; [|discriminate].
  intros [= <-]. apply utf8_encode_bytes in Hs.
  induction Hs as [|b bs Hb _ IH]; simpl; [reflexivity|].
  rewrite all_chars_app, quote_byte_chars, IH by assumption. reflexivity.
Qed.

End QuoteLemmas.

(** * The client: how a call runs *)

Ltac mrun :=
  unfold bind, ret, raise, or_raise, log, history, get_self, put_self, fresh;
  cbn [fst snd self next_id trace].

Ltac run_tail :=
  repeat match goal with
         | |- context [let (_, _) := ?c in _] =>
             let o := fresh "o" in
             let m := fresh "m" in
             let e := fresh "e" in
             destruct c as [[o|e] m]; [|reflexivity]
         end;
  unfold new_QTable;
  try match goal with
      | |- context [QTable_accepts ?rt ?t] => destruct (QTable_accepts rt t)
      end;
  reflexivity.

Section RunLemmas.
Context {value : Type} (rt : runtime value).

Implicit Types (m : machine value) (t : Table value).

Lemma param_units_run m :
  param_units rt m = (Return (units_of rt m), units_loaded rt m).
Proof.
  unfold param_units, units_of, units_loaded, bind, get_self. simpl.
  destruct (_param_units (self m)); reflexivity.
Qed.

Lemma units_of_loaded m : units_of rt (units_loaded rt m) = units_of rt m.
Proof.
  unfold units_of, units_loaded.
  destruct (_param_units (self m)) eqn:E; simpl; [rewrite E|]; reflexivity.
Qed.

Lemma units_loaded_idem m :
  units_loaded rt (units_loaded rt m) = units_loaded rt m.
Proof.
  unfold units_loaded at 1.
  destruct (_param_units (self (units_loaded rt m))) eqn:E; [reflexivity|].
  unfold units_loaded in E.
  destruct (_param_units (self m)) eqn:E'; simpl in E; congruence.
Qed.

(** The loop returns [annotate], and reads [param_units] once per name. *)
Lemma assign_units_run (names : list string) t m :
  assign_units rt names t m
  = (match annotate rt (units_of rt m) names t with
     | Some t' => Return t'
     | None => Raise ValueError
     end,
     match names with
     | [] => m
     | _ :: _ => units_loaded rt m
     end).
Proof.
  revert t m. induction names as [|col names IH]; intros t m; [reflexivity|].
  cbn [assign_units annotate]. unfold bind at 1. rewrite param_units_run.
  unfold unit_refused, unit_for.
  assert (Hstep : forall t',
    assign_units rt names t' (units_loaded rt m)
    = (match annotate rt (units_of rt m) names t' with
       | Some t' => Return t'
       | None => Raise ValueError
       end, units_loaded rt m)).
  { intros t'. rewrite IH, units_of_loaded, units_loaded_idem.
    destruct names; reflexivity. }
  destruct (units_of rt m !! col) as [unit_name|]; [|apply Hstep].
  destruct (hasattr_u rt unit_name); [|apply Hstep].
  destruct (Unit_accepts rt unit_name); [apply Hstep | reflexivity].
Qed.

Lemma setitem_not_nil t (name : string) (d : ColumnData value) :
  colnames (setitem t name d) <> [].
Proof.
  destruct t as [|c t]; simpl; [discriminate|].
  destruct (String.eqb (col_name c) name); discriminate.
Qed.

(** Lines 95-96 as one step. *)
Lemma add_sky_coord_run t m :
  add_sky_coord rt t m
  = (match sky_coord_of rt t with
     | inl e => Raise e
     | inr c => Return (with_sky_coord t c)
     end, m).
Proof.
  unfold add_sky_coord, sky_coord_of, with_sky_coord. mrun.
  destruct (getitem t "ra") as [ra_col|]; [|reflexivity]. cbn.
  destruct (mul_unit (is_numeric rt) ra_col deg) as [ra_q|]; [|reflexivity]. cbn.
  destruct (getitem t "dec") as [dec_col|]; [|reflexivity]. cbn.
  destruct (mul_unit (is_numeric rt) dec_col deg) as [dec_q|]; [|reflexivity].
  cbn. destruct (SkyCoord_accepts rt ra_q dec_q); reflexivity.
Qed.

Lemma call_download_file_run (url : string) (cache sp : bool) (timeout : Z) m :
  call_download_file rt url cache sp timeout m
  = (match download_file rt (trace m) url cache sp timeout with
     | inr path => Return path
     | inl e => Raise (FetchError e)
     end, logged [EDownload url cache sp timeout] m).
Proof.
  unfold call_download_file. mrun.
  destruct (download_file rt _ _ _ _ _); reflexivity.
Qed.

Lemma call_ascii_read_run (path : string) (fast_reader : bool) m :
  call_ascii_read rt path fast_reader m
  = (match ascii_read rt (trace m) path fast_reader with
     | inr p => Return p
     | inl e => Raise (ReadError e)
     end, logged [ERead path fast_reader] m).
Proof.
  unfold call_ascii_read. mrun.
  destruct (ascii_read rt _ _ _); reflexivity.
Qed.

Lemma logged_logged (es es' : list event) m :
  logged es' (logged es m) = logged (es ++ es') m.
Proof. unfold logged. cbn. rewrite app_assoc. reflexivity. Qed.

Lemma logged_nil m : logged [] m = m.
Proof. unfold logged. rewrite app_nil_r. destruct m; reflexivity. Qed.

(** The part of [load_table] that follows the download. *)
Lemma load_table_split (url : string) (cache sp : bool)
    (tp : option string) (ac : bool) m :
  load_table rt url cache sp tp ac m
  = match obtain_path rt m url cache sp tp ac with
    | inl e =>
        (Raise (FetchError e), logged (download_events url cache sp tp ac) m)
    | inr path =>
        (exoplanets_table <- call_ascii_read rt path false ;;
         exoplanets_table <- add_sky_coord rt exoplanets_table ;;
         assign_units rt (colnames exoplanets_table) exoplanets_table)
          (logged (download_events url cache sp tp ac) m)
    end.
Proof.
  unfold load_table, obtain_path, download_events.
  destruct tp as [path|].
  - rewrite logged_nil. reflexivity.
  - unfold bind at 1. rewrite call_download_file_run.
    destruct (download_file rt _ _ _ _ _); reflexivity.
Qed.

(** The download failed: the error is raised after that one call. *)
Lemma load_table_fetch_error (url : string) (cache sp : bool)
    (tp : option string) (ac : bool) m (e : fetch_error) :
  obtain_path rt m url cache sp tp ac = inl e ->
  load_table rt url cache sp tp ac m
  = (Raise (FetchError e), logged (download_events url cache sp tp ac) m).
Proof. intros H. rewrite load_table_split, H. reflexivity. Qed.

(** The file was obtained but [ascii.read] failed. *)
Lemma load_table_read_error (url : string) (cache sp : bool)
    (tp : option string) (ac : bool) m (path : string) (e : read_error) :
  obtain_path rt m url cache sp tp ac = inr path ->
  ascii_read rt (trace m ++ download_events url cache sp tp ac) path false
  = inl e ->
  load_table rt url cache sp tp ac m
  = (Raise (ReadError e),
     logged (download_events url cache sp tp ac ++ [ERead path false]) m).
Proof.
  intros H R. rewrite load_table_split, H.
  unfold bind at 1. rewrite call_ascii_read_run.
  cbn [logged trace]. rewrite R, logged_logged. reflexivity.
Qed.

(** The file was read as [p]: what the rest of the block does. *)
Lemma load_table_parsed (url : string) (cache sp : bool)
    (tp : option string) (ac : bool) m (path : string) (p : Table value) :
  obtain_path rt m url cache sp tp ac = inr path ->
  ascii_read rt (trace m ++ download_events url cache sp tp ac) path false
  = inr p ->
  load_table rt url cache sp tp ac m
  = match sky_coord_of rt p with
    | inl e =>
        (Raise e,
         logged (download_events url cache sp tp ac ++ [ERead path false]) m)
    | inr c =>
        (match annotate rt (units_of rt m) (colnames (with_sky_coord p c))
                 (with_sky_coord p c) with
         | Some t => Return t
         | None => Raise ValueError
         end,
         units_loaded rt
           (logged (download_events url cache sp tp ac ++ [ERead path false])
              m))
    end.
Proof.
  intros H R. rewrite load_table_split, H.
  unfold bind at 1. rewrite call_ascii_read_run.
  cbn [logged trace]. rewrite R, logged_logged.
  unfold bind at 1. rewrite add_sky_coord_run.
  destruct (sky_coord_of rt p) as [e|c]; [reflexivity|].
  rewrite assign_units_run.
  pose proof (setitem_not_nil p "sky_coord" (Mixin c)) as Hne.
  fold (with_sky_coord p c) in Hne.
  destruct (colnames (with_sky_coord p c)); [contradiction|].
  reflexivity.
Qed.

(** [query_planet], step by step. *)
Lemma query_planet_run (name : list N) (cache sp : bool)
    (tp : option string) (ac : bool) m :
  query_planet rt name cache sp tp ac m
  = match quote (format_quoted (strip name)) with
    | None => (Raise UnicodeEncodeError, alloc m)
    | Some q =>
        if planet_test m name cache
        then (Return (_table (self m)), alloc m)
        else
          match load_table rt (planet_url q) cache sp tp ac (alloc m) with
          | (Return t, m') =>
              if QTable_accepts rt t
              then
                (Return (Some {| tid := next_id m';
                                 cols := QTable_columns t |}),
                 stored t (Some (key_of m name)) (_cache_star (self m')) m')
              else (Raise TypeError, m')
          | (Raise e, m') => (Raise e, m')
          end
    end.
Proof.
  unfold query_planet, planet_test, key_of, alloc, str_format_quoted, url_quote.
  mrun. cbn [chars].
  destruct (quote (format_quoted (strip name))) as [q|]; [|reflexivity].
  mrun.
  destruct (is_not_None (_table (self m)) && _ && cache); [reflexivity|].
  unfold load_table, planet_url, bind.
  destruct tp as [path|]; [unfold ret|]; run_tail.
Qed.

(** [query_star], step by step. *)
Lemma query_star_run (name : list N) (cache sp : bool)
    (tp : option string) (ac : bool) m :
  query_star rt name cache sp tp ac m
  = match quote (format_quoted (strip name)) with
    | None => (Raise UnicodeEncodeError, alloc m)
    | Some q =>
        if star_test m name cache
        then (Return (_table (self m)), alloc m)
        else
          match load_table rt (star_url q) cache sp tp ac (alloc m) with
          | (Return t, m') =>
              if QTable_accepts rt t
              then
                (Return (Some {| tid := next_id m';
                                 cols := QTable_columns t |}),
                 stored t (_cache_planet (self m')) (Some (key_of m name)) m')
              else (Raise TypeError, m')
          | (Raise e, m') => (Raise e, m')
          end
    end.
Proof.
  unfold query_star, star_test, key_of, alloc, str_format_quoted, url_quote.
  mrun. cbn [chars].
  destruct (quote (format_quoted (strip name))) as [q|]; [|reflexivity].
  mrun.
  destruct (is_not_None (_table (self m)) && _ && cache); [reflexivity|].
  unfold load_table, star_url, bind.
  destruct tp as [path|]; [unfold ret|]; run_tail.
Qed.

(** [get_confirmed_planets_table], step by step. *)
Lemma get_confirmed_planets_table_run (tp : option string)
    (ac cache sp : bool) m :
  get_confirmed_planets_table rt tp ac cache sp m
  = if is_not_None (_table (self m))
    then (Return (_table (self m)), m)
    else
      match load_table rt EXOPLANETS_CSV_URL cache sp tp ac m with
      | (Return t, m') =>
          if QTable_accepts rt t
          then
            (Return (Some {| tid := next_id m'; cols := QTable_columns t |}),
             stored t (_cache_planet (self m')) (_cache_star (self m')) m')
          else (Raise TypeError, m')
      | (Raise e, m') => (Raise e, m')
      end.
Proof.
  unfold get_confirmed_planets_table. mrun.
  destruct (is_not_None (_table (self m))); [reflexivity|].
  unfold load_table, bind.
  destruct tp as [path|]; [unfold ret|]; run_tail.
Qed.

Lemma units_loaded_effect m :
  (exists ext, trace (units_loaded rt m) = trace m ++ ext
               /\ forallb (fun e => negb (is_download e)) ext = true)
  /\ next_id (units_loaded rt m) = next_id m
  /\ _table (self (units_loaded rt m)) = _table (self m)
  /\ _cache_planet (self (units_loaded rt m)) = _cache_planet (self m)
  /\ _cache_star (self (units_loaded rt m)) = _cache_star (self m).
Proof.
  unfold units_loaded. destruct (_param_units (self m)); cbn.
  - split; [|auto]. exists []. rewrite app_nil_r. auto.
  - split; [|auto]. exists [ELoadUnits]. auto.
Qed.

(** What [load_table] does to the machine, whatever its outcome: it
    starts with [first_io], downloads nothing after that, allocates
    nothing, and leaves [_table] and both keys alone. *)
Lemma load_table_effect (url : string) (cache sp : bool)
    (tp : option string) (ac : bool) m :
  io_only (first_io url cache sp tp ac) m
    (snd (load_table rt url cache sp tp ac m)).
Proof.
  assert (Hstop : forall (path : string) m0,
    io_only (ERead path false) m0 (logged [ERead path false] m0)).
  { intros path m0. unfold io_only. cbn. split; [|auto]. exists []. auto. }
  assert (Hread : forall path m0,
    io_only (ERead path false) m0
      (snd ((exoplanets_table <- call_ascii_read rt path false ;;
             exoplanets_table <- add_sky_coord rt exoplanets_table ;;
             assign_units rt (colnames exoplanets_table) exoplanets_table)
              m0))).
  { intros path m0. unfold bind at 1. rewrite call_ascii_read_run.
    destruct (ascii_read rt (trace m0) path false) as [e|p]; [apply Hstop|].
    unfold bind at 1. rewrite add_sky_coord_run.
    destruct (sky_coord_of rt p) as [e|c]; [apply Hstop|].
    rewrite assign_units_run.
    destruct (units_loaded_effect (logged [ERead path false] m0))
      as [[ext [Ht Hd]] [Hn [Htab [Hp Hs]]]].
    destruct (colnames (with_sky_coord p c)); cbn [snd].
    - apply Hstop.
    - unfold io_only. rewrite Hn, Htab, Hp, Hs. split; [|auto].
      exists ext. rewrite Ht. cbn. rewrite <- app_assoc. auto. }
  rewrite load_table_split.
  unfold obtain_path, download_events, first_io.
  destruct tp as [path|].
  - rewrite logged_nil. apply Hread.
  - destruct (download_file rt _ _ _ _ _) as [e|path].
    + unfold io_only. cbn. split; [|auto]. exists []. auto.
    + match goal with
      | |- context [logged ?es m] =>
          destruct (Hread path (logged es m))
            as [[ext [Ht Hd]] [Hn [Htab [Hp Hs]]]]
      end.
      unfold io_only. rewrite Hn, Htab, Hp, Hs. split; [|auto].
      exists (ERead path false :: ext). rewrite Ht. cbn.
      rewrite <- app_assoc. split; [reflexivity | exact Hd].
Qed.

(** The three methods follow one scheme. *)
Lemma call_run (op : operation) (cache sp : bool) (tp : option string)
    (ac : bool) m :
  call rt op cache sp tp ac m
  = match op_url op with
    | None => (Raise UnicodeEncodeError, op_start op m)
    | Some url =>
        if op_test op m cache
        then (Return (_table (self m)), op_start op m)
        else
          match load_table rt url cache sp tp ac (op_start op m) with
          | (Return t, m') =>
              if QTable_accepts rt t
              then
                (Return (Some {| tid := next_id m';
                                 cols := QTable_columns t |}),
                 op_store op m t m')
              else (Raise TypeError, m')
          | (Raise e, m') => (Raise e, m')
          end
    end.
Proof.
  destruct op as [name|name|]; cbn [call op_url op_test op_start op_store].
  - rewrite query_planet_run.
    destruct (quote (format_quoted (strip name))); reflexivity.
  - rewrite query_star_run.
    destruct (quote (format_quoted (strip name))); reflexivity.
  - apply get_confirmed_planets_table_run.
Qed.

Lemma op_start_effect (op : operation) m :
  trace (op_start op m) = trace m
  /\ _table (self (op_start op m)) = _table (self m)
  /\ _cache_planet (self (op_start op m)) = _cache_planet (self m)
  /\ _cache_star (self (op_start op m)) = _cache_star (self m).
Proof. destruct op; cbn; auto. Qed.

(** A call whose test fails starts with [first_io] and downloads nothing
    after it. *)
Lemma call_miss_trace (op : operation) (cache sp : bool)
    (tp : option string) (ac : bool) m (url : string) :
  op_url op = Some url ->
  op_test op m cache = false ->
  exists ext,
    trace (snd (call rt op cache sp tp ac m))
    = trace m ++ first_io url cache sp tp ac :: ext
    /\ forallb (fun e => negb (is_download e)) ext = true.
Proof.
  intros Hu Ht. rewrite call_run, Hu, Ht.
  destruct (load_table_effect url cache sp tp ac (op_start op m))
    as [[ext [Htr Hd]] _].
  destruct (op_start_effect op m) as [Hs _]. rewrite Hs in Htr.
  exists ext. split; [|exact Hd].
  destruct (load_table rt url cache sp tp ac (op_start op m)) as [[t|e] m'];
    cbn [snd] in *; [|exact Htr].
  destruct (QTable_accepts rt t); [destruct op; exact Htr | exact Htr].
Qed.

(** A call whose test fails is not answered from the cache. *)
Lemma call_miss_not_hit (op : operation) (cache sp : bool)
    (tp : option string) (ac : bool) m :
  op_test op m cache = false ->
  ~ cache_hit m (call rt op cache sp tp ac m).
Proof.
  intros Ht [t [_ [Hr Htr]]].
  destruct (op_url op) as [url|] eqn:Hu.
  - destruct (call_miss_trace op cache sp tp ac m url Hu Ht) as [ext [He _]].
    rewrite He in Htr.
    apply (f_equal (@List.length event)) in Htr.
    rewrite length_app in Htr. cbn in Htr. lia.
  - rewrite call_run, Hu in Hr. discriminate Hr.
Qed.

(** ** Columns *)

Lemma getitem_name t (name : string) (c : Column value) :
  getitem t name = Some c -> col_name c = name.
Proof.
  induction t as [|c0 t IH]; cbn; [discriminate|].
  destruct (String.eqb_spec (col_name c0) name) as [E|_]; [|exact IH].
  intros [= <-]. exact E.
Qed.

Lemma getitem_setitem t (name name' : string) (d : ColumnData value) :
  getitem (setitem t name d) name'
  = if String.eqb name name'
    then Some {| col_name := name; col_data := d; col_unit := None |}
    else getitem t name'.
Proof.
  induction t as [|c t IH]; cbn.
  - destruct (String.eqb name name'); reflexivity.
  - destruct (String.eqb_spec (col_name c) name) as [E|E]; cbn.
    + rewrite E. destruct (String.eqb name name'); reflexivity.
    + destruct (String.eqb_spec (col_name c) name') as [E'|E'].
      * destruct (String.eqb_spec name name') as [E''|_]; [|reflexivity].
        congruence.
      * exact IH.
Qed.

Lemma getitem_set_unit t (name name' : string) (u : Unit) :
  getitem (set_unit t name u) name'
  = match getitem t name' with
    | Some c =>
        Some (if String.eqb name name'
              then {| col_name := col_name c; col_data := col_data c;
                      col_unit := Some u |}
              else c)
    | None => None
    end.
Proof.
  induction t as [|c t IH]; cbn; [reflexivity|].
  destruct (String.eqb_spec (col_name c) name) as [E|E]; cbn.
  - subst name. destruct (String.eqb (col_name c) name'); [reflexivity|].
    destruct (getitem t name'); reflexivity.
  - destruct (String.eqb_spec (col_name c) name') as [E'|E']; [|exact IH].
    destruct (String.eqb_spec name name') as [E''|_]; [congruence|].
    reflexivity.
Qed.

(** The loop raises exactly when one of its names is refused. *)
Lemma annotate_accepted (units : gmap string string) (names : list string) t :
  match annotate rt units names t with
  | Some _ => units_accepted rt units names = true
  | None => units_accepted rt units names = false
  end.
Proof.
  revert t. induction names as [|col names IH]; intros t; [reflexivity|].
  cbn [annotate units_accepted forallb].
  destruct (unit_refused rt units col); [reflexivity|]. cbn [negb andb].
  destruct (unit_for rt units col) as [u|]; apply IH.
Qed.

(** What the loop does to the column called [name]: its content stays,
    and its unit becomes the one the mapping names when the loop meets
    that name and the unit is known. *)
Lemma annotate_getitem (units : gmap string string) (names : list string)
    t (T : Table value) (name : string) (c : Column value) :
  annotate rt units names t = Some T ->
  getitem t name = Some c ->
  exists c',
    getitem T name = Some c'
    /\ col_data c' = col_data c
    /\ col_unit c'
       = if existsb (String.eqb name) names
         then match unit_for rt units name with
              | Some u => Some u
              | None => col_unit c
              end
         else col_unit c.
Proof.
  revert t c. induction names as [|col names IH]; intros t c HT Hc.
  - injection HT as <-. exists c. auto.
  - cbn [annotate existsb] in *.
    destruct (unit_refused rt units col); [discriminate|].
    destruct (String.eqb_spec name col) as [<-|Hne]; cbn [orb].
    + destruct (unit_for rt units name) as [u|] eqn:Hu.
      * destruct (IH (set_unit t name u)
                    {| col_name := col_name c; col_data := col_data c;
                       col_unit := Some u |} HT) as [c' [Hg [Hd Hun]]].
        { rewrite getitem_set_unit, Hc, String.eqb_refl. reflexivity. }
        exists c'. split; [exact Hg|]. split; [exact Hd|].
        rewrite Hun. cbn. destruct (existsb _ names); reflexivity.
      * destruct (IH t c HT Hc) as [c' [Hg [Hd Hun]]].
        exists c'. split; [exact Hg|]. split; [exact Hd|].
        rewrite Hun. destruct (existsb _ names); reflexivity.
    + destruct (unit_for rt units col) as [u|].
      * apply (IH _ _ HT). rewrite getitem_set_unit, Hc.
        destruct (String.eqb_spec col name) as [E|_]; [congruence|].
        reflexivity.
      * apply (IH _ _ HT). exact Hc.
Qed.

Lemma getitem_colnames t (name : string) (c : Column value) :
  getitem t name = Some c -> existsb (String.eqb name) (colnames t) = true.
Proof.
  induction t as [|c0 t IH]; [discriminate|].
  cbn [getitem colnames map existsb]. fold (colnames t).
  destruct (String.eqb_spec (col_name c0) name) as [<-|_].
  - intros _. rewrite String.eqb_refl. reflexivity.
  - intros H. rewrite (IH H). apply orb_true_r.
Qed.

(** The loop over all the names of the table it annotates. *)
Lemma annotate_colnames (units : gmap string string) t (T : Table value)
    (name : string) (c : Column value) :
  annotate rt units (colnames t) t = Some T ->
  getitem t name = Some c ->
  exists c',
    getitem T name = Some c'
    /\ col_data c' = col_data c
    /\ col_unit c' = match unit_for rt units name with
                     | Some u => Some u
                     | None => col_unit c
                     end.
Proof.
  intros HT Hc.
  destruct (annotate_getitem units (colnames t) t T name c HT Hc)
    as [c' [Hg [Hd Hu]]].
  rewrite (getitem_colnames t name c Hc) in Hu. eauto.
Qed.

(** What [QTable(...)] keeps of a column. *)
Lemma getitem_QTable_columns t (name : string) :
  getitem (QTable_columns t) name = option_map QTable_column (getitem t name).
Proof.
  induction t as [|c t IH]; [reflexivity|].
  cbn [QTable_columns map getitem]. fold (QTable_columns t).
  assert (Hn : col_name (QTable_column c) = col_name c)
    by (unfold QTable_column; destruct (col_data c); reflexivity).
  rewrite Hn. destruct (String.eqb (col_name c) name); [reflexivity | exact IH].
Qed.

Lemma colnames_QTable_columns t : colnames (QTable_columns t) = colnames t.
Proof.
  unfold colnames, QTable_columns. rewrite map_map. apply map_ext.
  intros c. unfold QTable_column. destruct (col_data c); reflexivity.
Qed.

(** The loop raises only at a name that passes [hasattr] and that
    [u.Unit] refuses. *)
Lemma units_accepted_spec (units : gmap string string) (names : list string) :
  units_accepted rt units names = true
  <-> forall name unit_name,
        In name names ->
        units !! name = Some unit_name ->
        hasattr_u rt unit_name = true ->
        Unit_accepts rt unit_name = true.
Proof.
  unfold units_accepted. rewrite forallb_forall. split.
  - intros H name unit_name Hin Hl Hh. specialize (H name Hin).
    unfold unit_refused in H. rewrite Hl, Hh in H.
    destruct (Unit_accepts rt unit_name); [reflexivity | discriminate H].
  - intros H name Hin. unfold unit_refused.
    destruct (units !! name) as [unit_name|] eqn:Hl; [|reflexivity].
    destruct (hasattr_u rt unit_name) eqn:Hh; [|reflexivity].
    rewrite (H name unit_name Hin Hl Hh). reflexivity.
Qed.

Lemma In_colnames_setitem t (name x : string) (d : ColumnData value) :
  In x (colnames (setitem t name d)) <-> x = name \/ In x (colnames t).
Proof.
  induction t as [|c t IH].
  - cbn. intuition congruence.
  - cbn [setitem].
    destruct (String.eqb_spec (col_name c) name) as [E|E].
    + cbn. rewrite E. intuition congruence.
    + cbn [colnames map In]. fold (colnames t).
      fold (colnames (setitem t name d)). rewrite IH. tauto.
Qed.


(** A call that reads a file as [p]: the outcome and the machine it
    leaves. *)
Lemma call_parsed (op : operation) (cache sp : bool) (tp : option string)
    (ac : bool) m (url path : string) (p : Table value) :
  op_url op = Some url ->
  op_test op m cache = false ->
  obtain_path rt (op_start op m) url cache sp tp ac = inr path ->
  ascii_read rt (trace m ++ download_events url cache sp tp ac) path false
  = inr p ->
  call rt op cache sp tp ac m
  = match sky_coord_of rt p with
    | inl e =>
        (Raise e,
         logged (download_events url cache sp tp ac ++ [ERead path false])
           (op_start op m))
    | inr c =>
        match annotate rt (units_of rt m) (colnames (with_sky_coord p c))
                (with_sky_coord p c) with
        | Some t =>
            if QTable_accepts rt t
            then
              (Return (Some {| tid := next_id (op_start op m);
                               cols := QTable_columns t |}),
               op_store op m t
                 (units_loaded rt
                    (logged (download_events url cache sp tp ac
                             ++ [ERead path false]) (op_start op m))))
            else
              (Raise TypeError,
               units_loaded rt
                 (logged (download_events url cache sp tp ac
                          ++ [ERead path false]) (op_start op m)))
        | None =>
            (Raise ValueError,
             units_loaded rt
               (logged (download_events url cache sp tp ac
                        ++ [ERead path false]) (op_start op m)))
        end
    end.
Proof.
  intros Hu Ht Hpath Hread.
  destruct (op_start_effect op m) as [Htr _].
  rewrite call_run, Hu, Ht.
  rewrite (load_table_parsed url cache sp tp ac (op_start op m) path p Hpath)
    by (rewrite ?Htr; assumption).
  assert (Hunits : units_of rt (op_start op m) = units_of rt m)
    by (destruct op; reflexivity).
  rewrite Hunits.
  destruct (sky_coord_of rt p) as [e|c]; [reflexivity|].
  destruct (annotate rt _ _ _) as [t|]; [|reflexivity].
  destruct (QTable_accepts rt t); [|reflexivity].
  destruct (units_loaded_effect
              (logged (download_events url cache sp tp ac
                       ++ [ERead path false]) (op_start op m)))
    as [_ [Hn _]].
  rewrite Hn. reflexivity.
Qed.

(** ** Object identities *)

Lemma older_mono (n n' : nat) (i : option nat) :
  (n <= n')%nat -> older n i = true -> older n' i = true.
Proof.
  destruct i as [i|]; [|reflexivity]. unfold older.
  rewrite !Nat.ltb_lt. lia.
Qed.

Lemma wf_parts m :
  wf m = true <->
  older (next_id m) (option_map oid (_cache_planet (self m))) = true
  /\ older (next_id m) (option_map oid (_cache_star (self m))) = true
  /\ older (next_id m) (option_map tid (_table (self m))) = true.
Proof. unfold wf. rewrite !andb_true_iff. tauto. Qed.

(** A key built now is identical to no key stored earlier. *)
Lemma is_fresh_key m (name : list N) (k : option PyString) :
  older (next_id m) (option_map oid k) = true ->
  is_ k (key_of m name) = false.
Proof.
  destruct k as [k|]; [|reflexivity]. unfold older, is_, key_of, option_map, oid.
  rewrite Nat.ltb_lt, Nat.eqb_neq. lia.
Qed.

(** On a machine a run can reach, the tests of [query_planet] and
    [query_star] fail. *)
Lemma wf_test_false (op : operation) m (cache : bool) :
  wf m = true -> op <> AllPlanets -> op_test op m cache = false.
Proof.
  rewrite wf_parts. intros [Hp [Hs _]] Hop.
  destruct op as [name|name|]; [| |contradiction]; cbn;
    unfold planet_test, star_test.
  - rewrite (is_fresh_key m name _ Hp), andb_false_r. reflexivity.
  - rewrite (is_fresh_key m name _ Hs), andb_false_r. reflexivity.
Qed.

Lemma wf_op_start (op : operation) m :
  wf m = true -> wf (op_start op m) = true.
Proof.
  rewrite !wf_parts. intros [Hp [Hs Ht]].
  destruct op; cbn; auto;
    repeat split; eapply older_mono; try eassumption; lia.
Qed.

Lemma op_start_next_id (op : operation) m :
  (next_id m <= next_id (op_start op m))%nat.
Proof. destruct op; cbn; lia. Qed.

(** Every call keeps the machine well formed. *)
Lemma wf_call (op : operation) (cache sp : bool) (tp : option string)
    (ac : bool) m :
  wf m = true -> wf (snd (call rt op cache sp tp ac m)) = true.
Proof.
  intros Hwf. rewrite call_run.
  pose proof (wf_op_start op m Hwf) as Hst.
  destruct (op_url op) as [url|]; [|exact Hst].
  destruct (op_test op m cache); [exact Hst|].
  destruct (load_table_effect url cache sp tp ac (op_start op m))
    as [_ [Hn [Htab [Hp Hs]]]].
  pose proof (op_start_next_id op m) as Hle.
  apply wf_parts in Hst as [Hkp [Hks Hkt]].
  destruct (load_table rt url cache sp tp ac (op_start op m)) as [[t|e] m'];
    cbn [snd] in *.
  - destruct (QTable_accepts rt t); cbn [snd].
    + rewrite <- Hn, <- Hp in Hkp. rewrite <- Hn, <- Hs in Hks.
      apply wf_parts.
      destruct op; cbn;
        repeat split;
        first [ apply Nat.leb_le; lia
              | eapply older_mono; [|eassumption]; lia ].
    + apply wf_parts. rewrite Hn, Htab, Hp, Hs. auto.
  - apply wf_parts. rewrite Hn, Htab, Hp, Hs. auto.
Qed.

(** A table a call has just built is not the one stored before. *)
Lemma call_miss_new_table (op : operation) (cache sp : bool)
    (tp : option string) (ac : bool) m (x : option (QTable value)) :
  wf m = true ->
  op_test op m cache = false ->
  fst (call rt op cache sp tp ac m) = Return x ->
  x <> _table (self m)
  /\ _table (self (snd (call rt op cache sp tp ac m))) = x.
Proof.
  intros Hwf Ht. rewrite call_run.
  destruct (op_url op) as [url|]; [|discriminate].
  rewrite Ht.
  destruct (load_table_effect url cache sp tp ac (op_start op m))
    as [_ [Hn _]].
  pose proof (op_start_next_id op m) as Hle.
  apply wf_parts in Hwf as [_ [_ Hold]].
  destruct (load_table rt url cache sp tp ac (op_start op m)) as [[t|e] m'];
    cbn [fst snd] in *; [|discriminate].
  destruct (QTable_accepts rt t); [|discriminate].
  cbn [fst snd]. intros [= <-]. split.
  - intros E. rewrite <- E in Hold. cbn in Hold.
    apply Nat.ltb_lt in Hold. lia.
  - destruct op; reflexivity.
Qed.

End RunLemmas.

(** * The cache *)

Section Cache.
Context {value : Type} (rt : runtime value).

Implicit Types (m : machine value).

(** A query never touches the key of the other kind, and
    [get_confirmed_planets_table] touches neither. *)
Lemma call_keys_frame (op : operation) (cache sp : bool)
    (tp : option string) (ac : bool) m :
  let m' := snd (call rt op cache sp tp ac m) in
  ((forall name, op <> ByPlanet name) ->
   _cache_planet (self m') = _cache_planet (self m))
  /\ ((forall name, op <> ByStar name) ->
      _cache_star (self m') = _cache_star (self m)).
Proof.
  cbv zeta. rewrite call_run.
  destruct (op_start_effect op m) as [_ [_ [Hp0 Hs0]]].
  destruct (op_url op) as [url|]; [|split; intros _; assumption].
  destruct (op_test op m cache); [split; intros _; assumption|].
  destruct (load_table_effect rt url cache sp tp ac (op_start op m))
    as [_ [_ [_ [Hp Hs]]]].
  destruct (load_table rt url cache sp tp ac (op_start op m)) as [[t|e] m'];
    cbn [snd] in *.
  - destruct (QTable_accepts rt t); cbn [snd];
      [|split; intros _; congruence].
    destruct op as [name|name|]; cbn; split; intros Hop;
      try (contradiction (Hop name); reflexivity); congruence.
  - split; intros _; congruence.
Qed.

(** C4. Whenever a table is stored on the client, whatever query stored it
    and whatever the two keys are, [get_confirmed_planets_table] returns
    that table and leaves the machine as it was: no key is compared and no
    I/O is performed. *)
Theorem get_confirmed_planets_table_returns_stored (tp : option string)
    (ac cache sp : bool) m (t : QTable value) :
  _table (self m) = Some t ->
  get_confirmed_planets_table rt tp ac cache sp m = (Return (Some t), m).
Proof.
  intros H. rewrite get_confirmed_planets_table_run, H. reflexivity.
Qed.

(** C3, as amended. [query_planet] and [query_star] answer from the cache
    only if the key they build is identical to the stored key of their
    kind and [cache] is true: when either fails, the call is not a cache
    hit.  [get_confirmed_planets_table] has no key and does not look at
    [cache]: whenever a table is stored, it is a cache hit. *)
Theorem cache_hit_needs_key_and_flag (name : list N) (cache sp : bool)
    (tp : option string) (ac : bool) m :
  (is_ (_cache_planet (self m)) (key_of m name) = false \/ cache = false ->
   ~ cache_hit m (query_planet rt name cache sp tp ac m))
  /\ (is_ (_cache_star (self m)) (key_of m name) = false \/ cache = false ->
      ~ cache_hit m (query_star rt name cache sp tp ac m))
  /\ (forall t, _table (self m) = Some t ->
      cache_hit m (get_confirmed_planets_table rt tp ac cache sp m)).
Proof.
  repeat split.
  - intros H. apply (call_miss_not_hit rt (ByPlanet name)).
    cbn. unfold planet_test.
    destruct H as [-> | ->];
      rewrite ?andb_false_r; reflexivity.
  - intros H. apply (call_miss_not_hit rt (ByStar name)).
    cbn. unfold star_test.
    destruct H as [-> | ->];
      rewrite ?andb_false_r; reflexivity.
  - intros t Ht. exists t.
    rewrite get_confirmed_planets_table_run, Ht. auto.
Qed.

(** C2, as amended. On a client that holds no planet key, as a new client
    does, a [query_planet] call with [cache=True] that follows
    [get_confirmed_planets_table] is not answered from the stored table: it
    starts its own download, or reads its own [table_path]. *)
Theorem query_planet_after_get_confirmed (name : list N) (q : string)
    (sp : bool) (tp : option string) (ac : bool)
    (tp0 : option string) (ac0 cache0 sp0 : bool) m :
  _cache_planet (self m) = None ->
  quote (format_quoted (strip name)) = Some q ->
  let m1 := snd (get_confirmed_planets_table rt tp0 ac0 cache0 sp0 m) in
  let r := query_planet rt name true sp tp ac m1 in
  ~ cache_hit m1 r
  /\ exists ext,
       trace (snd r) = trace m1 ++ first_io (planet_url q) true sp tp ac :: ext.
Proof.
  intros Hkey Hq m1 r.
  assert (Htest : op_test (ByPlanet name) m1 true = false).
  { destruct (call_keys_frame AllPlanets cache0 sp0 tp0 ac0 m) as [Hp _].
    cbn. unfold planet_test. fold m1 in Hp.
    change (snd (call rt AllPlanets cache0 sp0 tp0 ac0 m)) with m1 in Hp.
    rewrite Hp by discriminate. rewrite Hkey. cbn.
    rewrite andb_false_r. reflexivity. }
  split.
  - apply (call_miss_not_hit rt (ByPlanet name)). exact Htest.
  - destruct (call_miss_trace rt (ByPlanet name) true sp tp ac m1
                (planet_url q)) as [ext [He _]].
    + cbn [op_url]. rewrite Hq. reflexivity.
    + exact Htest.
    + exists ext. exact He.
Qed.

(** On a machine a run can reach, [query_planet] and [query_star] are
    never answered from the cache: the key they compare with [is] is a
    string object built by that very call. *)
Lemma query_never_cached (op : operation) (cache sp : bool)
    (tp : option string) (ac : bool) m :
  wf m = true -> op <> AllPlanets ->
  ~ cache_hit m (call rt op cache sp tp ac m).
Proof.
  intros Hwf Hop. apply call_miss_not_hit. apply wf_test_false; assumption.
Qed.

(** C5. On a machine a run can reach, for every planet name [P] and star
    name [S], a [query_star(S)] call with [cache=True] that follows
    [query_planet(P)] is not answered from the cache; a table it returns is
    not the one the planet query stored; and it starts with its own
    download of the star URL, or reads its own [table_path]. *)
Theorem query_star_after_query_planet (P S : list N) (cache sp : bool)
    (tp : option string) (ac : bool) (sp' : bool) (tp' : option string)
    (ac' : bool) m :
  wf m = true ->
  let m1 := snd (query_planet rt P cache sp tp ac m) in
  let r := query_star rt S true sp' tp' ac' m1 in
  ~ cache_hit m1 r
  /\ (forall x, fst r = Return x -> x <> _table (self m1))
  /\ (forall q, quote (format_quoted (strip S)) = Some q ->
      exists ext,
        trace (snd r)
        = trace m1 ++ first_io (star_url q) true sp' tp' ac' :: ext
        /\ forallb (fun e => negb (is_download e)) ext = true).
Proof.
  intros Hwf m1 r.
  assert (Hwf1 : wf m1 = true)
    by apply (wf_call rt (ByPlanet P) cache sp tp ac m Hwf).
  assert (Htest : op_test (ByStar S) m1 true = false)
    by (apply wf_test_false; [exact Hwf1 | discriminate]).
  repeat split.
  - apply (call_miss_not_hit rt (ByStar S)). exact Htest.
  - intros x Hx.
    apply (call_miss_new_table rt (ByStar S) true sp' tp' ac' m1 x Hwf1 Htest Hx).
  - intros q Hq.
    apply (call_miss_trace rt (ByStar S) true sp' tp' ac' m1 (star_url q));
      [cbn [op_url]; rewrite Hq; reflexivity | exact Htest].
Qed.

End Cache.

(** * The query URL *)

Section Url.

Lemma utf8_encode_cp_total (c : N) :
  scalar_value c = true -> exists b, utf8_encode_cp c = Some b.
Proof.
  unfold scalar_value, utf8_encode_cp.
  rewrite orb_true_iff, andb_true_iff, !N.ltb_lt. intros Hc.
  destruct (N.ltb_spec c 0x80); [eauto|].
  destruct (N.ltb_spec c 0x800); [eauto|].
  destruct (N.ltb_spec c 0x10000).
  - destruct (N.leb_spec 0xD800 c); destruct (N.leb_spec c 0xDFFF);
      cbn [andb]; eauto; lia.
  - destruct (N.ltb_spec c 0x110000); [eauto | lia].
Qed.

Lemma utf8_encode_total (s : list N) :
  forallb scalar_value s = true -> exists bs, utf8_encode s = Some bs.
Proof.
  induction s as [|c s IH]; cbn [forallb utf8_encode]; [eauto|].
  rewrite andb_true_iff. intros [Hc Hs].
  destruct (utf8_encode_cp_total c Hc) as [b ->].
  destruct (IH Hs) as [bs ->]. eauto.
Qed.

Lemma forallb_strip (p : N -> bool) (s : list N) :
  forallb p s = true -> forallb p (strip s) = true.
Proof.
  destruct (strip_spec s) as [[l [r [Hs _]]] _].
  intros H. rewrite Hs, !forallb_app, !andb_true_iff in H. tauto.
Qed.

(** Every name without lone surrogates can be escaped. *)
Lemma quote_name_total (name : list N) :
  forallb scalar_value name = true ->
  exists q, quote (format_quoted (strip name)) = Some q.
Proof.
  intros H. unfold quote.
  destruct (utf8_encode_total (format_quoted (strip name))) as [bs ->];
    [|eauto].
  unfold format_quoted. rewrite !forallb_app, (forallb_strip _ _ H).
  reflexivity.
Qed.

Lemma contains_select_escaped (q : string) :
  all_chars url_char q = true -> contains "&select=*" q = false.
Proof.
  induction q as [|a q IH]; [reflexivity|].
  cbn [all_chars]. rewrite andb_true_iff. intros [Ha Hq].
  cbn [contains String.prefix].
  destruct (ascii_dec "&" a) as [<-|_]; [discriminate Ha|].
  apply IH. exact Hq.
Qed.

(** C6. For every name (one [quote] can encode): the value sent is the
    name with the whitespace at both ends removed, between single quotes,
    and escaped, so that decoding it gives back the UTF-8 bytes of the
    quoted name and it holds only unreserved characters, [/] and [%XX];
    when they download, [query_planet] requests the base endpoint followed
    by [&where=pl_name=] and that value, [query_star] the same with
    [&where=pl_hostname=]; with [all_columns] the URL requested is that
    one followed by [&select=*], which the default URL does not
    contain. *)
Theorem query_url_construction (name : list N) :
  forallb scalar_value name = true ->
  exists q : string,
    quote (format_quoted (strip name)) = Some q
    /\ (exists l r, name = l ++ strip name ++ r
                    /\ Forall (fun c => isspace c = true) l
                    /\ Forall (fun c => isspace c = true) r)
    /\ (forall c, head (strip name) = Some c -> isspace c = false)
    /\ (forall c, last (strip name) = Some c -> isspace c = false)
    /\ (exists bs, utf8_encode (lit "'" ++ strip name ++ lit "'") = Some bs
                   /\ percent_decode q = Some bs)
    /\ all_chars url_char q = true
    /\ (forall (value : Type) (rt : runtime value) (cache sp ac : bool)
               (m : machine value),
          planet_test m name cache = false ->
          exists ext,
            trace (snd (query_planet rt name cache sp None ac m))
            = trace m
              ++ EDownload
                   (if ac
                    then ((EXOPLANETS_CSV_URL ++ "&where=pl_name=" ++ q)
                          ++ "&select=*")%string
                    else (EXOPLANETS_CSV_URL ++ "&where=pl_name=" ++ q)%string)
                   cache sp 120
              :: ext)
    /\ (forall (value : Type) (rt : runtime value) (cache sp ac : bool)
               (m : machine value),
          star_test m name cache = false ->
          exists ext,
            trace (snd (query_star rt name cache sp None ac m))
            = trace m
              ++ EDownload
                   (if ac
                    then ((EXOPLANETS_CSV_URL ++ "&where=pl_hostname=" ++ q)
                          ++ "&select=*")%string
                    else (EXOPLANETS_CSV_URL ++ "&where=pl_hostname=" ++ q)%string)
                   cache sp 120
              :: ext)
    /\ contains "&select=*"
         (EXOPLANETS_CSV_URL ++ "&where=pl_name=" ++ q) = false
    /\ contains "&select=*"
         (EXOPLANETS_CSV_URL ++ "&where=pl_hostname=" ++ q) = false.
Proof.
  intros Hname. destruct (quote_name_total name Hname) as [q Hq].
  exists q. split; [exact Hq|].
  destruct (strip_spec name) as [Hsplit [Hhead Hlast]].
  pose proof (quote_chars _ _ Hq) as Hchars.
  repeat split; try assumption.
  - apply quote_decodes. exact Hq.
  - intros value rt cache sp ac m Ht.
    destruct (call_miss_trace rt (ByPlanet name) cache sp None ac m
                (planet_url q)) as [ext [He _]];
      [cbn [op_url]; rewrite Hq; reflexivity | exact Ht |].
    exists ext. exact He.
  - intros value rt cache sp ac m Ht.
    destruct (call_miss_trace rt (ByStar name) cache sp None ac m
                (star_url q)) as [ext [He _]];
      [cbn [op_url]; rewrite Hq; reflexivity | exact Ht |].
    exists ext. exact He.
  - cbv beta iota fix delta [EXOPLANETS_CSV_URL String.append]. cbn.
    apply contains_select_escaped. exact Hchars.
  - cbv beta iota fix delta [EXOPLANETS_CSV_URL String.append]. cbn.
    apply contains_select_escaped. exact Hchars.
Qed.

End Url.

(** * The table a call returns *)

Section Annotation.
Context {value : Type} (rt : runtime value).

Implicit Types (m : machine value) (p : Table value).

(** The outcome of a call that reads [p]. *)
Lemma reads_outcome (op : operation) (cache sp : bool)
    (tp : option string) (ac : bool) m p :
  reads rt op cache sp tp ac m p ->
  fst (call rt op cache sp tp ac m)
  = match sky_coord_of rt p with
    | inl e => Raise e
    | inr c =>
        match annotate rt (units_of rt m) (colnames (with_sky_coord p c))
                (with_sky_coord p c) with
        | Some t =>
            if QTable_accepts rt t
            then Return (Some {| tid := next_id (op_start op m);
                                 cols := QTable_columns t |})
            else Raise TypeError
        | None => Raise ValueError
        end
    end.
Proof.
  intros [url [path [Hu [Ht [Hpath Hread]]]]].
  rewrite (call_parsed rt op cache sp tp ac m url path p Hu Ht Hpath Hread).
  destruct (sky_coord_of rt p) as [e|c]; [reflexivity|].
  destruct (annotate rt _ _ _) as [t|]; [|reflexivity].
  destruct (QTable_accepts rt t); reflexivity.
Qed.

(** A call that reads [p] returns exactly when lines 95-96 build a
    coordinate, the loop raises nothing and [QTable] builds the table. *)
Lemma reads_returns (op : operation) (cache sp : bool)
    (tp : option string) (ac : bool) m p (T : QTable value) :
  reads rt op cache sp tp ac m p ->
  fst (call rt op cache sp tp ac m) = Return (Some T)
  <-> exists sc t,
        sky_coord_of rt p = inr sc
        /\ annotate rt (units_of rt m) (colnames (with_sky_coord p sc))
             (with_sky_coord p sc) = Some t
        /\ QTable_accepts rt t = true
        /\ T = {| tid := next_id (op_start op m); cols := QTable_columns t |}.
Proof.
  intros Hreads. rewrite (reads_outcome op cache sp tp ac m p Hreads). split.
  - destruct (sky_coord_of rt p) as [e|sc]; [discriminate|].
    destruct (annotate rt _ _ _) as [t|] eqn:Ha; [|discriminate].
    destruct (QTable_accepts rt t) eqn:Hq; [|discriminate].
    intros [= <-]. exists sc, t. auto.
  - intros [sc [t [-> [-> [-> ->]]]]]. reflexivity.
Qed.

(** It does return when the coordinate is built, [u.Unit] accepts every
    name that passes [hasattr] and [QTable] accepts its argument. *)
Lemma reads_returns_when (op : operation) (cache sp : bool)
    (tp : option string) (ac : bool) m p (sc : SkyCoord value) :
  reads rt op cache sp tp ac m p ->
  sky_coord_of rt p = inr sc ->
  (forall name unit_name,
     name = "sky_coord"%string \/ In name (colnames p) ->
     units_of rt m !! name = Some unit_name ->
     hasattr_u rt unit_name = true ->
     Unit_accepts rt unit_name = true) ->
  (forall t : Table value, QTable_accepts rt t = true) ->
  exists T : QTable value,
    fst (call rt op cache sp tp ac m) = Return (Some T).
Proof.
  intros Hreads Hsc Hunits Hq.
  pose proof (annotate_accepted rt (units_of rt m)
                (colnames (with_sky_coord p sc)) (with_sky_coord p sc)) as Ha.
  destruct (annotate rt _ _ _) as [t|] eqn:Hann.
  - eexists. apply (reads_returns op cache sp tp ac m p _ Hreads).
    exists sc, t. auto.
  - assert (Hacc : units_accepted rt (units_of rt m)
                     (colnames (with_sky_coord p sc)) = true).
    { apply units_accepted_spec. intros name unit_name Hin.
      apply Hunits. apply In_colnames_setitem in Hin. exact Hin. }
    congruence.
Qed.

(** C7. For a call that reads a table and returns: every column of the
    file, other than one called [sky_coord], whose name is a key of the
    units mapping comes back with the values it was read with; its unit
    is the one the mapping names when that name passes
    [hasattr(u, name)], and otherwise the unit the file declared for it,
    none for a file that declares none.  A name that does not pass
    [hasattr] raises nothing: the call returns whenever the coordinate
    can be built, [u.Unit] accepts every name that passes [hasattr] and
    astropy builds the [QTable]. *)
Theorem units_assigned_where_known (op : operation) (cache sp : bool)
    (tp : option string) (ac : bool) m p :
  reads rt op cache sp tp ac m p ->
  (forall T : QTable value,
     fst (call rt op cache sp tp ac m) = Return (Some T) ->
     forall (name unit_name : string) (c : Column value) (vs : list value),
       name <> "sky_coord"%string ->
       getitem p name = Some c ->
       col_data c = Values vs ->
       units_of rt m !! name = Some unit_name ->
       exists c',
         getitem (cols T) name = Some c'
         /\ col_data c' = Values vs
         /\ col_unit c' = (if hasattr_u rt unit_name
                           then Some (MkUnit unit_name) else col_unit c))
  /\ (forall sc : SkyCoord value,
        sky_coord_of rt p = inr sc ->
        (forall name unit_name,
           name = "sky_coord"%string \/ In name (colnames p) ->
           units_of rt m !! name = Some unit_name ->
           hasattr_u rt unit_name = true ->
           Unit_accepts rt unit_name = true) ->
        (forall t : Table value, QTable_accepts rt t = true) ->
        exists T : QTable value,
          fst (call rt op cache sp tp ac m) = Return (Some T)).
Proof.
  intros Hreads. split;
    [|intros sc; apply (reads_returns_when op cache sp tp ac m p sc Hreads)].
  intros T HT name unit_name c vs Hne Hc Hvs Hunit.
  apply (reads_returns op cache sp tp ac m p T Hreads) in HT
    as [sc [t [_ [Ha [_ ->]]]]].
  cbn [cols].
  destruct (annotate_colnames rt (units_of rt m) (with_sky_coord p sc) t
              name c Ha) as [c' [Hg [Hd Hu]]].
  { unfold with_sky_coord. rewrite getitem_setitem.
    destruct (String.eqb_spec "sky_coord" name) as [E|_]; [congruence|].
    exact Hc. }
  rewrite Hvs in Hd.
  exists c'. rewrite getitem_QTable_columns, Hg. cbn [option_map].
  unfold QTable_column. rewrite Hd. split; [reflexivity|].
  split; [reflexivity|].
  rewrite Hu. unfold unit_for. rewrite Hunit.
  destruct (hasattr_u rt unit_name); reflexivity.
Qed.


End Annotation.

(** * Failures and frame *)

Section Failures.
Context {value : Type} (rt : runtime value).

Implicit Types (m : machine value).

Lemma filter_no_download (ext : list event) :
  forallb (fun e => negb (is_download e)) ext = true ->
  List.filter is_download ext = [].
Proof.
  induction ext as [|e ext IH]; [reflexivity|].
  cbn [forallb List.filter]. rewrite andb_true_iff. intros [He Hext].
  destruct (is_download e); [discriminate|]. apply IH. exact Hext.
Qed.

(** The downloads of one call: none, or one with a timeout of 120. *)
Lemma call_downloads (op : operation) (cache sp : bool)
    (tp : option string) (ac : bool) m :
  exists ext,
    trace (snd (call rt op cache sp tp ac m)) = trace m ++ ext
    /\ (List.filter is_download ext = []
        \/ exists url, List.filter is_download ext = [EDownload url cache sp 120]).
Proof.
  destruct (op_url op) as [url|] eqn:Hu.
  - destruct (op_test op m cache) eqn:Ht.
    + exists []. rewrite call_run, Hu, Ht, app_nil_r.
      destruct (op_start_effect op m) as [H _]. split; [exact H | auto].
    + destruct (call_miss_trace rt op cache sp tp ac m url Hu Ht)
        as [ext [He Hd]].
      exists (first_io url cache sp tp ac :: ext). split; [exact He|].
      cbn [List.filter]. rewrite (filter_no_download ext Hd).
      destruct tp as [path|]; cbn; eauto.
  - exists []. rewrite call_run, Hu, app_nil_r.
    destruct (op_start_effect op m) as [H _]. split; [exact H | auto].
Qed.

(** C9. Each call downloads at most once, with a timeout of 120.  When the
    call does not answer from the cache: if that download fails, by a
    network failure or a timeout, the call raises that failure as a fetch
    error after this single attempt; if the file does not parse, the call
    raises the parse error.  In both cases no table is returned and the
    instance is left as it was. *)
Theorem fetch_and_parse_errors_propagate (op : operation) (cache sp : bool)
    (tp : option string) (ac : bool) m :
  (exists ext,
     trace (snd (call rt op cache sp tp ac m)) = trace m ++ ext
     /\ (List.filter is_download ext = []
         \/ exists url,
              List.filter is_download ext = [EDownload url cache sp 120]))
  /\ forall url,
       op_url op = Some url ->
       op_test op m cache = false ->
       (forall e : fetch_error,
          tp = None ->
          download_file rt (trace m)
            (if ac then (url ++ "&select=*")%string else url) cache sp 120
          = inl e ->
          call rt op cache sp tp ac m
          = (Raise (FetchError e),
             logged [EDownload
                       (if ac then (url ++ "&select=*")%string else url)
                       cache sp 120] (op_start op m)))
       /\ (forall (path : string) (e : read_error),
             obtain_path rt (op_start op m) url cache sp tp ac = inr path ->
             ascii_read rt (trace m ++ download_events url cache sp tp ac)
               path false = inl e ->
             call rt op cache sp tp ac m
             = (Raise (ReadError e),
                logged (download_events url cache sp tp ac
                        ++ [ERead path false]) (op_start op m))).
Proof.
  split; [apply call_downloads|].
  intros url Hu Ht.
  destruct (op_start_effect op m) as [Htr _].
  split.
  - intros e -> Hd. rewrite call_run, Hu, Ht.
    rewrite (load_table_fetch_error rt url cache sp None ac (op_start op m) e);
      [reflexivity|].
    unfold obtain_path. rewrite Htr. exact Hd.
  - intros path e Hpath Hread. rewrite call_run, Hu, Ht.
    rewrite (load_table_read_error rt url cache sp tp ac (op_start op m)
               path e Hpath); [reflexivity|].
    rewrite Htr. exact Hread.
Qed.

(** C10. [query_planet] never changes [_cache_star], and when it has
    loaded a table, [_table] is that table and [_cache_planet] the key of
    this call; [query_star] likewise with the two keys exchanged;
    [get_confirmed_planets_table] changes neither key, and when it has
    loaded a table, [_table] is that table.  So the key of the other kind
    is, after any such call, what it was before. *)
Theorem fetch_leaves_other_key (name : list N) (cache sp : bool)
    (tp : option string) (ac : bool) m :
  let rp := query_planet rt name cache sp tp ac m in
  let rs := query_star rt name cache sp tp ac m in
  let ra := get_confirmed_planets_table rt tp ac cache sp m in
  (_cache_star (self (snd rp)) = _cache_star (self m)
   /\ (planet_test m name cache = false ->
       forall x, fst rp = Return x ->
         x <> None
         /\ _table (self (snd rp)) = x
         /\ _cache_planet (self (snd rp)) = Some (key_of m name)))
  /\ (_cache_planet (self (snd rs)) = _cache_planet (self m)
      /\ (star_test m name cache = false ->
          forall x, fst rs = Return x ->
            x <> None
            /\ _table (self (snd rs)) = x
            /\ _cache_star (self (snd rs)) = Some (key_of m name)))
  /\ (_cache_planet (self (snd ra)) = _cache_planet (self m)
      /\ _cache_star (self (snd ra)) = _cache_star (self m)
      /\ (_table (self m) = None ->
          forall x, fst ra = Return x ->
            x <> None /\ _table (self (snd ra)) = x)).
Proof.
  cbv zeta.
  assert (Hload : forall (op : operation),
    op_test op m cache = false ->
    forall x, fst (call rt op cache sp tp ac m) = Return x ->
      exists t m',
        x = Some {| tid := next_id m'; cols := QTable_columns t |}
        /\ snd (call rt op cache sp tp ac m) = op_store op m t m').
  { intros op Ht x. rewrite call_run.
    destruct (op_url op) as [url|]; [|discriminate]. rewrite Ht.
    destruct (load_table rt url cache sp tp ac (op_start op m))
      as [[t|e] m']; [|discriminate].
    destruct (QTable_accepts rt t); [|discriminate].
    cbn [fst snd]. intros [= <-]. eauto. }
  split; [|split].
  - split; [apply (call_keys_frame rt (ByPlanet name)); discriminate|].
    intros Ht x Hx.
    destruct (Hload (ByPlanet name) Ht x Hx) as [t [m' [-> Hm]]].
    cbn [call] in Hm. rewrite Hm.
    split; [discriminate|]. split; reflexivity.
  - split; [apply (call_keys_frame rt (ByStar name)); discriminate|].
    intros Ht x Hx.
    destruct (Hload (ByStar name) Ht x Hx) as [t [m' [-> Hm]]].
    cbn [call] in Hm. rewrite Hm.
    split; [discriminate|]. split; reflexivity.
  - split; [apply (call_keys_frame rt AllPlanets); discriminate|].
    split; [apply (call_keys_frame rt AllPlanets); discriminate|].
    intros Hnone x Hx.
    assert (Ht : op_test AllPlanets m cache = false)
      by (cbn; rewrite Hnone; reflexivity).
    destruct (Hload AllPlanets Ht x Hx) as [t [m' [-> Hm]]].
    cbn [call] in Hm. rewrite Hm.
    split; [discriminate | reflexivity].
Qed.

End Failures.

(** * The sample world, run *)

Module Kepler7.
Import Sample.

Example first_query_planet :
  query_planet world kepler7b true true (Some "kepler7.csv"%string) false boot
  = (Return (Some {| tid := 1; cols := kepler7_columns |}), after_planet).
Proof. vm_compute. reflexivity. Qed.

Example after_planet_state :
  _table (self after_planet) = Some {| tid := 1; cols := kepler7_columns |}
  /\ _cache_planet (self after_planet)
     = Some {| oid := 0; chars := lit "'Kepler-7 b'" |}
  /\ _cache_star (self after_planet) = None
  /\ next_id after_planet = 2%nat
  /\ trace after_planet = [ERead "kepler7.csv" false; ELoadUnits].
Proof. vm_compute. auto. Qed.

Example after_all_state :
  _table (self after_all) = Some {| tid := 0; cols := kepler7_columns |}
  /\ _cache_planet (self after_all) = None
  /\ _cache_star (self after_all) = None
  /\ trace after_all
     = [EDownload EXOPLANETS_CSV_URL true true 120;
        ERead ("/cache/" ++ EXOPLANETS_CSV_URL) false; ELoadUnits].
Proof. vm_compute. auto. Qed.

(** C1, on the code.  [query_planet("Kepler-7 b", cache=True,
    table_path="kepler7.csv")] twice on a new client: the second call is
    not answered from the cache.  It reads the file again and returns a
    table object other than the one the first call stored, because line 80
    compares the stored key with [is] against a string this call has just
    built. *)
Theorem query_planet_twice_reads_again :
  let second :=
    query_planet world kepler7b true true (Some "kepler7.csv"%string) false
      after_planet in
  _table (self after_planet) = Some {| tid := 1; cols := kepler7_columns |}
  /\ fst second = Return (Some {| tid := 3; cols := kepler7_columns |})
  /\ trace (snd second) = trace after_planet ++ [ERead "kepler7.csv" false]
  /\ ~ cache_hit after_planet second.
Proof.
  cbv zeta. split; [vm_compute; reflexivity|].
  split; [vm_compute; reflexivity|].
  split; [vm_compute; reflexivity|].
  apply (query_never_cached world (ByPlanet kepler7b));
    [vm_compute; reflexivity | discriminate].
Qed.

(** C2 fails here: after [get_confirmed_planets_table()] on a new client,
    [query_planet("Kepler-7 b", cache=True)] is not answered from the
    stored table. *)
Lemma query_planet_after_all_not_cached :
  ~ cache_hit after_all
      (query_planet world kepler7b true true None false after_all).
Proof.
  intros [t [_ [_ Htrace]]]. vm_compute in Htrace. discriminate Htrace.
Qed.

Lemma query_planet_after_get_confirmed_witness :
  _cache_planet (self (value := Q) boot) = None
  /\ quote (format_quoted (strip kepler7b)) = Some "%27Kepler-7%20b%27"%string
  /\ ~ cache_hit after_all
         (query_planet world kepler7b true true None false after_all)
  /\ exists ext,
       trace (snd (query_planet world kepler7b true true None false after_all))
       = trace after_all
         ++ first_io (planet_url "%27Kepler-7%20b%27") true true None false
         :: ext.
Proof.
  split; [reflexivity|]. split; [vm_compute; reflexivity|].
  apply (query_planet_after_get_confirmed world kepler7b "%27Kepler-7%20b%27"
           true None false None false true true boot).
  - reflexivity.
  - vm_compute. reflexivity.
Defined.

(** C3 fails here: with [cache=False] and a table stored,
    [get_confirmed_planets_table] is answered from the cache. *)
Lemma get_confirmed_cache_false_hits :
  ~ (forall cache : bool,
       cache_hit after_planet
         (get_confirmed_planets_table world None false cache true after_planet)
       -> cache = true).
Proof.
  intros H.
  assert (Hhit : cache_hit after_planet
    (get_confirmed_planets_table world None false false true after_planet)).
  { exists {| tid := 1; cols := kepler7_columns |}.
    repeat split; vm_compute; reflexivity. }
  discriminate (H false Hhit).
Qed.

Lemma cache_hit_needs_key_and_flag_witness :
  ~ cache_hit after_planet
      (query_planet world kepler7b false true (Some "kepler7.csv"%string)
         false after_planet)
  /\ ~ cache_hit after_planet
         (query_star world kepler7_host true true (Some "kepler7.csv"%string)
            false after_planet)
  /\ cache_hit after_planet
       (get_confirmed_planets_table world (Some "kepler7.csv"%string) false
          false true after_planet).
Proof.
  destruct (cache_hit_needs_key_and_flag world kepler7b false true
              (Some "kepler7.csv"%string) false after_planet) as [Hp [_ Ha]].
  destruct (cache_hit_needs_key_and_flag world kepler7_host true true
              (Some "kepler7.csv"%string) false after_planet) as [_ [Hs _]].
  split; [apply Hp; right; reflexivity|].
  split; [apply Hs; left; vm_compute; reflexivity|].
  apply (Ha {| tid := 1; cols := kepler7_columns |}).
  vm_compute. reflexivity.
Defined.

Lemma get_confirmed_planets_table_returns_stored_witness :
  _table (self after_planet) = Some {| tid := 1; cols := kepler7_columns |}
  /\ get_confirmed_planets_table world None false true true after_planet
     = (Return (Some {| tid := 1; cols := kepler7_columns |}), after_planet).
Proof.
  split; [vm_compute; reflexivity|].
  apply (get_confirmed_planets_table_returns_stored world).
  vm_compute. reflexivity.
Defined.

Lemma query_star_after_query_planet_witness :
  wf (value := Q) boot = true
  /\ ~ cache_hit after_planet
         (query_star world kepler7_host true true (Some "kepler7.csv"%string)
            false after_planet).
Proof.
  split; [reflexivity|].
  apply (query_star_after_query_planet world kepler7b kepler7_host true true
           (Some "kepler7.csv"%string) false true (Some "kepler7.csv"%string)
           false boot).
  reflexivity.
Defined.

Example kepler7b_url :
  first_io (planet_url "%27Kepler-7%20b%27") true true None true
  = EDownload
      "http://exoplanetarchive.ipac.caltech.edu/cgi-bin/nstedAPI/nph-nstedAPI?table=exoplanets&where=pl_name=%27Kepler-7%20b%27&select=*"
      true true 120.
Proof. reflexivity. Qed.

Example strip_then_quote :
  quote (format_quoted (strip (lit "  Kepler-7 b ")))
  = Some "%27Kepler-7%20b%27"%string.
Proof. vm_compute. reflexivity. Qed.

Lemma query_url_construction_witness :
  forallb scalar_value kepler7b = true
  /\ exists q : string,
       quote (format_quoted (strip kepler7b)) = Some q
       /\ contains "&select=*"
            (EXOPLANETS_CSV_URL ++ "&where=pl_name=" ++ q) = false.
Proof.
  split; [reflexivity|].
  destruct (query_url_construction kepler7b) as [q Hq]; [reflexivity|].
  exists q. split; [apply Hq|]. apply Hq.
Defined.

Lemma kepler7_read :
  reads world (ByPlanet kepler7b) true true None false boot
    (Table_of_parsed kepler7).
Proof.
  exists (planet_url "%27Kepler-7%20b%27"),
         ("/cache/" ++ planet_url "%27Kepler-7%20b%27")%string.
  repeat split; vm_compute; reflexivity.
Defined.

(** In [world], [u.Unit] accepts what [hasattr] accepts. *)
Lemma world_units_accepted (unit_name : string) :
  hasattr_u world unit_name = true -> Unit_accepts world unit_name = true.
Proof. intros H. exact H. Defined.

(** C7 fails here.  The file declares [pl_radj] in metres; the mapping
    names [jupiterRad] for it, which this astropy lacks: the column comes
    back in metres, not without a unit. *)
Lemma file_unit_kept_when_name_unknown :
  ~ (forall (T : QTable Q) (c : Column Q) (unit_name : string),
       fst (query_planet Worlds.ecsv_world kepler7b true true
              (Some "kepler7.ecsv"%string) false boot) = Return (Some T) ->
       getitem (cols T) "pl_radj" = Some c ->
       units_of Worlds.ecsv_world boot !! "pl_radj"%string = Some unit_name ->
       hasattr_u Worlds.ecsv_world unit_name = false ->
       col_unit c = None).
Proof.
  intros H.
  assert (HT : exists T : QTable Q,
    fst (query_planet Worlds.ecsv_world kepler7b true true
           (Some "kepler7.ecsv"%string) false boot) = Return (Some T)
    /\ getitem (cols T) "pl_radj"
       = Some {| col_name := "pl_radj"; col_data := Values [115962684%Q];
                 col_unit := Some (MkUnit "m") |}).
  { eexists. split; vm_compute; reflexivity. }
  destruct HT as [T [HT Hc]].
  specialize (H T _ "jupiterRad"%string HT Hc).
  discriminate H; vm_compute; reflexivity.
Qed.

(** The same call: the period, declared in hours by the file, comes back
    tagged [day] with the number it was read with. *)
Example file_unit_replaced_when_name_known :
  exists T : QTable Q,
    fst (query_planet Worlds.ecsv_world kepler7b true true
           (Some "kepler7.ecsv"%string) false boot) = Return (Some T)
    /\ getitem (cols T) "pl_orbper"
       = Some {| col_name := "pl_orbper";
                 col_data := Values [4885525 # 1000000]%Q;
                 col_unit := Some (MkUnit "day") |}.
Proof. eexists. split; vm_compute; reflexivity. Qed.

Lemma units_assigned_where_known_witness :
  reads world (ByPlanet kepler7b) true true None false boot
    (Table_of_parsed kepler7)
  /\ exists T : QTable Q,
       fst (query_planet world kepler7b true true None false boot)
       = Return (Some T)
       /\ (exists c, getitem (cols T) "pl_orbper" = Some c
                     /\ col_data c = Values [4885525 # 1000000]%Q
                     /\ col_unit c = Some (MkUnit "day"))
       /\ (exists c, getitem (cols T) "pl_radj" = Some c
                     /\ col_data c = Values [1622 # 1000]%Q
                     /\ col_unit c = None).
Proof.
  split; [exact kepler7_read|].
  destruct (units_assigned_where_known world (ByPlanet kepler7b) true true
              None false boot (Table_of_parsed kepler7) kepler7_read)
    as [Hcols Hret].
  edestruct Hret as [T HT];
    [vm_compute; reflexivity
    |intros name unit_name _ _; apply world_units_accepted
    |reflexivity|].
  exists T. split; [exact HT|]. split.
  - apply (Hcols T HT "pl_orbper"%string "day"%string
             (plain_column ("pl_orbper"%string, [4885525 # 1000000]%Q)));
      [discriminate | reflexivity | reflexivity | vm_compute; reflexivity].
  - apply (Hcols T HT "pl_radj"%string "jupiterRad"%string
             (plain_column ("pl_radj"%string, [1622 # 1000]%Q)));
      [discriminate | reflexivity | reflexivity | vm_compute; reflexivity].
Defined.


Lemma fetch_and_parse_errors_propagate_witness :
  query_planet offline kepler7b true true None false boot
  = (Raise (FetchError TimedOut),
     logged [EDownload (planet_url "%27Kepler-7%20b%27") true true 120]
       (alloc boot))
  /\ query_planet garbled kepler7b true true (Some "kepler7.csv"%string)
       false boot
     = (Raise (ReadError Malformed),
        logged [ERead "kepler7.csv" false] (alloc boot)).
Proof.
  split.
  - apply (proj2 (fetch_and_parse_errors_propagate offline (ByPlanet kepler7b)
                    true true None false boot)
             (planet_url "%27Kepler-7%20b%27"));
      reflexivity.
  - apply (proj2 (fetch_and_parse_errors_propagate garbled (ByPlanet kepler7b)
                    true true (Some "kepler7.csv"%string) false boot)
             (planet_url "%27Kepler-7%20b%27"));
      reflexivity.
Defined.

Lemma fetch_leaves_other_key_witness :
  _cache_planet
    (self (snd (query_star world kepler7_host true true
                  (Some "kepler7.csv"%string) false after_planet)))
  = Some {| oid := 0; chars := lit "'Kepler-7 b'" |}
  /\ _cache_star
       (self (snd (query_star world kepler7_host true true
                     (Some "kepler7.csv"%string) false after_planet)))
     = Some (key_of after_planet kepler7_host).
Proof.
  destruct (fetch_leaves_other_key world kepler7_host true true
              (Some "kepler7.csv"%string) false after_planet)
    as [_ [[Hframe Hstore] _]].
  split.
  - rewrite Hframe. vm_compute. reflexivity.
  - apply (Hstore eq_refl
             (Some {| tid := 3; cols := kepler7_columns |})).
    vm_compute. reflexivity.
Defined.

End Kepler7.

(** * Further properties of the three methods *)

Section Robustness.
Context {value : Type} (rt : runtime value).

Implicit Types (m : machine value).

Lemma units_reads_logged (es : list event) m :
  forallb (fun e => negb (is_load_units e)) es = true ->
  units_reads (trace (logged es m)) = units_reads (trace m).
Proof.
  intros Hes. unfold units_reads, logged. cbn [trace].
  rewrite List.filter_app, length_app.
  replace (List.filter is_load_units es) with (@nil event); [cbn; lia|].
  induction es as [|e0 es IH]; [reflexivity|].
  cbn in Hes |- *. apply andb_true_iff in Hes as [H0 Hes].
  destruct (is_load_units e0); [discriminate | auto].
Qed.

(** Lines 95-96 raise no [ValueError] of [u.Unit]. *)
Lemma sky_coord_of_not_ValueError (t : Table value) :
  sky_coord_of rt t <> inl ValueError.
Proof.
  unfold sky_coord_of.
  destruct (getitem t "ra") as [ra_c|]; [|discriminate].
  destruct (mul_unit (is_numeric rt) ra_c deg) as [ra_q|]; [|discriminate].
  destruct (getitem t "dec") as [dec_c|]; [|discriminate].
  destruct (mul_unit (is_numeric rt) dec_c deg) as [dec_q|]; [|discriminate].
  destruct (SkyCoord_accepts rt ra_q dec_q); discriminate.
Qed.

Lemma self_units_loaded_logged (es : list event) m :
  self (units_loaded rt (logged es m)) = self (units_loaded rt m).
Proof.
  unfold units_loaded, logged. cbn [self].
  destruct (_param_units (self m)); reflexivity.
Qed.

Lemma load_table_raise (url : string) (cache sp : bool)
    (tp : option string) (ac : bool) m (e : exn) :
  fst (load_table rt url cache sp tp ac m) = Raise e ->
  (e <> ValueError ->
   self (snd (load_table rt url cache sp tp ac m)) = self m
   /\ units_reads (trace (snd (load_table rt url cache sp tp ac m)))
      = units_reads (trace m))
  /\ (e = ValueError ->
      self (snd (load_table rt url cache sp tp ac m))
      = self (units_loaded rt m)).
Proof.
  assert (Hdl : forall es,
    forallb (fun e => negb (is_load_units e))
      (download_events url cache sp tp ac ++ es)
    = forallb (fun e => negb (is_load_units e)) es)
    by (intros es; unfold download_events; destruct tp; reflexivity).
  destruct (obtain_path rt m url cache sp tp ac) as [fe|path] eqn:Hp.
  { rewrite (load_table_fetch_error rt url cache sp tp ac m fe Hp).
    intros [= <-]. split; [|discriminate]. intros _.
    split; [reflexivity|]. apply units_reads_logged.
    rewrite <- (app_nil_r (download_events _ _ _ _ _)), Hdl. reflexivity. }
  destruct (ascii_read rt (trace m ++ download_events url cache sp tp ac)
              path false) as [re|p] eqn:Hr.
  { rewrite (load_table_read_error rt url cache sp tp ac m path re Hp Hr).
    intros [= <-]. split; [|discriminate]. intros _.
    split; [reflexivity|]. apply units_reads_logged.
    rewrite Hdl. reflexivity. }
  rewrite (load_table_parsed rt url cache sp tp ac m path p Hp Hr).
  pose proof (sky_coord_of_not_ValueError p) as Hnv.
  destruct (sky_coord_of rt p) as [x|c].
  - intros [= <-]. split; [|intros ->; contradiction].
    intros _. split; [reflexivity|]. apply units_reads_logged.
    rewrite Hdl. reflexivity.
  - destruct (annotate rt _ _ _); [discriminate|].
    intros [= <-]. split; [contradiction|]. intros _.
    apply self_units_loaded_logged.
Qed.

(** When [load_table] returns, the units mapping has been loaded and
    nothing else of the instance has changed. *)
Lemma load_table_return (url : string) (cache sp : bool)
    (tp : option string) (ac : bool) m (t : Table value) :
  fst (load_table rt url cache sp tp ac m) = Return t ->
  self (snd (load_table rt url cache sp tp ac m)) = self (units_loaded rt m).
Proof.
  destruct (obtain_path rt m url cache sp tp ac) as [fe|path] eqn:Hp.
  { rewrite (load_table_fetch_error rt url cache sp tp ac m fe Hp).
    discriminate. }
  destruct (ascii_read rt (trace m ++ download_events url cache sp tp ac)
              path false) as [re|p] eqn:Hr.
  { rewrite (load_table_read_error rt url cache sp tp ac m path re Hp Hr).
    discriminate. }
  rewrite (load_table_parsed rt url cache sp tp ac m path p Hp Hr).
  destruct (sky_coord_of rt p) as [x|c]; [discriminate|].
  intros _. apply self_units_loaded_logged.
Qed.

(** X1. A call that raises leaves the stored table and both keys as they
    were, and the instance either as it was or as it was with the units
    mapping loaded.  When what it raises is neither the [ValueError] of
    [u.Unit] nor a [TypeError], so that it comes from [quote], from the
    download, from [ascii.read], from a missing column or from
    [SkyCoord], the whole instance is as it was and the units file has
    not been opened. *)
Theorem raising_call_leaves_instance (op : operation) (cache sp : bool)
    (tp : option string) (ac : bool) m (e : exn) :
  fst (call rt op cache sp tp ac m) = Raise e ->
  _table (self (snd (call rt op cache sp tp ac m))) = _table (self m)
  /\ _cache_planet (self (snd (call rt op cache sp tp ac m)))
     = _cache_planet (self m)
  /\ _cache_star (self (snd (call rt op cache sp tp ac m)))
     = _cache_star (self m)
  /\ (self (snd (call rt op cache sp tp ac m)) = self m
      \/ self (snd (call rt op cache sp tp ac m)) = self (units_loaded rt m))
  /\ (e <> ValueError -> e <> TypeError ->
      self (snd (call rt op cache sp tp ac m)) = self m
      /\ units_reads (trace (snd (call rt op cache sp tp ac m)))
         = units_reads (trace m)).
Proof.
  rewrite call_run.
  assert (Hstart : self (op_start op m) = self m
                   /\ trace (op_start op m) = trace m)
    by (destruct op; split; reflexivity).
  destruct Hstart as [Hself Htrace].
  assert (Hl0 : self (units_loaded rt (op_start op m))
                = self (units_loaded rt m))
    by (unfold units_loaded; rewrite Hself;
        destruct (_param_units (self m)); cbn; rewrite ?Hself; reflexivity).
  destruct (op_url op) as [url|].
  - destruct (op_test op m cache); [discriminate|].
    pose proof (load_table_raise url cache sp tp ac (op_start op m)) as Hl.
    pose proof (load_table_return url cache sp tp ac (op_start op m)) as Hr.
    destruct (load_table_effect rt url cache sp tp ac (op_start op m))
      as [_ [_ [Htab [Hp Hs]]]].
    destruct (load_table rt url cache sp tp ac (op_start op m)) as [[t|x] m'];
      cbn [fst snd] in *.
    + destruct (QTable_accepts rt t); [discriminate|].
      cbn [fst snd]. intros [= <-].
      rewrite Htab, Hp, Hs, Hself. repeat (split; [reflexivity|]).
      split; [|intros _ Hne; contradiction].
      right. rewrite (Hr t eq_refl). exact Hl0.
    + intros [= ->]. destruct (Hl e eq_refl) as [Hsame Hval].
      rewrite Htab, Hp, Hs, Hself. repeat (split; [reflexivity|]). split.
      * destruct e; try (left; rewrite (proj1 (Hsame ltac:(discriminate)));
                         exact Hself).
        right. rewrite (Hval eq_refl). exact Hl0.
      * intros Hne _. destruct (Hsame Hne) as [H1 H2].
        rewrite H1, H2, Htrace. auto.
  - intros [= <-]. cbn [snd]. rewrite Hself, Htrace.
    repeat (split; [reflexivity|]). auto.
Qed.

(** X2. A file without an [ra] column makes the call raise
    [KeyError('ra')], whether it has [dec] or not; one whose [ra] column
    holds no numbers makes it raise [TypeError], whether it has [dec] or
    not; one with a numeric [ra] and without [dec] makes it raise
    [KeyError('dec')]. *)
Theorem missing_coordinate_column_raises (op : operation) (cache sp : bool)
    (tp : option string) (ac : bool) m (p : Table value) :
  reads rt op cache sp tp ac m p ->
  (getitem p "ra" = None ->
   fst (call rt op cache sp tp ac m) = Raise (KeyError "ra"))
  /\ (forall (ra_c : Column value) (ras : list value),
        getitem p "ra" = Some ra_c ->
        col_data ra_c = Values ras ->
        is_numeric rt ras = false ->
        fst (call rt op cache sp tp ac m) = Raise TypeError)
  /\ (forall (ra_c : Column value) (ras : list value),
        getitem p "ra" = Some ra_c ->
        col_data ra_c = Values ras ->
        is_numeric rt ras = true ->
        getitem p "dec" = None ->
        fst (call rt op cache sp tp ac m) = Raise (KeyError "dec")).
Proof.
  intros Hreads. rewrite (reads_outcome rt op cache sp tp ac m p Hreads).
  unfold sky_coord_of, mul_unit. split; [|split].
  - intros ->. reflexivity.
  - intros ra_c ras -> -> ->. reflexivity.
  - intros ra_c ras -> -> -> ->. reflexivity.
Qed.

(** X15. When the units file names, for a column of the table, an
    attribute of [astropy.units] that is no unit, so that
    [hasattr(u, name)] holds and [u.Unit(name)] raises, the call raises
    that [ValueError]: by then the file has been read and the units
    mapping loaded, and no table is stored. *)
Theorem non_unit_attribute_raises (op : operation) (cache sp : bool)
    (tp : option string) (ac : bool) m (p : Table value)
    (sc : SkyCoord value) (name unit_name : string) :
  reads rt op cache sp tp ac m p ->
  sky_coord_of rt p = inr sc ->
  name = "sky_coord"%string \/ In name (colnames p) ->
  units_of rt m !! name = Some unit_name ->
  hasattr_u rt unit_name = true ->
  Unit_accepts rt unit_name = false ->
  fst (call rt op cache sp tp ac m) = Raise ValueError
  /\ _param_units (self (snd (call rt op cache sp tp ac m)))
     = Some (units_of rt m)
  /\ _table (self (snd (call rt op cache sp tp ac m))) = _table (self m).
Proof.
  intros Hreads Hsc Hin Hunit Hhas Hrefuse.
  assert (Hnone : annotate rt (units_of rt m) (colnames (with_sky_coord p sc))
                    (with_sky_coord p sc) = None).
  { pose proof (annotate_accepted rt (units_of rt m)
                  (colnames (with_sky_coord p sc)) (with_sky_coord p sc)) as Ha.
    destruct (annotate rt _ _ _) as [t|]; [|reflexivity].
    pose proof (proj1 (units_accepted_spec rt _ _) Ha name unit_name) as Hacc.
    rewrite Hacc in Hrefuse; [discriminate Hrefuse | | assumption..].
    apply In_colnames_setitem. exact Hin. }
  destruct Hreads as [url [path [Hu [Ht [Hpath Hread]]]]].
  rewrite (call_parsed rt op cache sp tp ac m url path p Hu Ht Hpath Hread).
  rewrite Hsc, Hnone. cbn [fst snd]. split; [reflexivity|].
  rewrite self_units_loaded_logged.
  assert (Hself : self (op_start op m) = self m) by (destruct op; reflexivity).
  unfold units_loaded, units_of. rewrite Hself.
  destruct (_param_units (self m)) eqn:E; cbn; rewrite ?Hself, ?E; auto.
Qed.

End Robustness.

Section Names.

Lemma utf8_encode_In (s : list N) (c : N) :
  In c s -> utf8_encode_cp c = None -> utf8_encode s = None.
Proof.
  induction s as [|a s IH]; [contradiction|].
  intros [->|Hin] Hc; cbn [utf8_encode].
  - rewrite Hc. reflexivity.
  - rewrite (IH Hin Hc). destruct (utf8_encode_cp a); reflexivity.
Qed.

Lemma In_strip (s : list N) (c : N) :
  In c s -> isspace c = false -> In c (strip s).
Proof.
  intros Hin Hc. destruct (strip_spec s) as [[l [r [Hs [Hl Hr]]]] _].
  rewrite Hs in Hin. apply in_app_or in Hin as [Hin|Hin].
  - rewrite Forall_forall in Hl. apply list_elem_of_In, Hl in Hin. congruence.
  - apply in_app_or in Hin as [Hin|Hin]; [exact Hin|].
    rewrite Forall_forall in Hr. apply list_elem_of_In, Hr in Hin. congruence.
Qed.

Lemma surrogate_not_encodable (c : N) :
  0xD800 <= c <= 0xDFFF -> utf8_encode_cp c = None /\ isspace c = false.
Proof.
  intros Hc. split.
  - unfold utf8_encode_cp.
    destruct (N.ltb_spec c 0x80); [lia|].
    destruct (N.ltb_spec c 0x800); [lia|].
    destruct (N.ltb_spec c 0x10000); [|lia].
    destruct (N.leb_spec 0xD800 c); [|lia].
    destruct (N.leb_spec c 0xDFFF); [reflexivity | lia].
  - unfold isspace.
    rewrite !orb_false_iff, !andb_false_iff, !N.leb_gt, !N.eqb_neq. lia.
Qed.

(** X3. A name holding a lone surrogate makes [query_planet] and
    [query_star] raise [UnicodeEncodeError] before anything else: no I/O,
    the instance untouched, also when [table_path] is given (the URL is
    then not needed) and also when a table is stored. *)
Theorem lone_surrogate_raises (name : list N) (c : N) :
  In c name ->
  0xD800 <= c <= 0xDFFF ->
  forall (value : Type) (rt : runtime value) (cache sp : bool)
         (tp : option string) (ac : bool) (m : machine value),
    query_planet rt name cache sp tp ac m = (Raise UnicodeEncodeError, alloc m)
    /\ query_star rt name cache sp tp ac m = (Raise UnicodeEncodeError, alloc m).
Proof.
  intros Hin Hc value rt cache sp tp ac m.
  destruct (surrogate_not_encodable c Hc) as [Henc Hsp].
  assert (Hq : quote (format_quoted (strip name)) = None).
  { unfold quote. rewrite (utf8_encode_In _ c); [reflexivity | | exact Henc].
    unfold format_quoted. apply in_or_app. right. apply in_or_app. left.
    apply In_strip; assumption. }
  rewrite query_planet_run, query_star_run, Hq. auto.
Qed.

Lemma lstrip_spaces (l s : list N) :
  Forall (fun c => isspace c = true) l -> lstrip (l ++ s) = lstrip s.
Proof.
  induction 1 as [|c l Hc _ IH]; [reflexivity|].
  cbn. rewrite Hc. exact IH.
Qed.

Lemma rstrip_spaces_only (r : list N) :
  Forall (fun c => isspace c = true) r -> rstrip r = [].
Proof.
  induction 1 as [|c r Hc _ IH]; [reflexivity|].
  cbn. rewrite IH, Hc. reflexivity.
Qed.

Lemma rstrip_spaces (s r : list N) :
  Forall (fun c => isspace c = true) r -> rstrip (s ++ r) = rstrip s.
Proof.
  intros Hr. induction s as [|c s IH].
  - cbn. apply rstrip_spaces_only. exact Hr.
  - cbn. rewrite IH. reflexivity.
Qed.

Lemma lstrip_all_spaces (s : list N) :
  lstrip s = [] -> Forall (fun c => isspace c = true) s.
Proof.
  induction s as [|c s IH]; [constructor|].
  cbn. destruct (isspace c) eqn:Hc; [|discriminate].
  intros H. constructor; auto.
Qed.

Lemma lstrip_app_nonempty (s r : list N) :
  lstrip s <> [] -> lstrip (s ++ r) = lstrip s ++ r.
Proof.
  induction s as [|c s IH]; [contradiction|].
  cbn. destruct (isspace c); [exact IH | reflexivity].
Qed.

(** Whitespace added at either end does not change what [strip] gives. *)
Lemma strip_padded (l s r : list N) :
  Forall (fun c => isspace c = true) l ->
  Forall (fun c => isspace c = true) r ->
  strip (l ++ s ++ r) = strip s.
Proof.
  intros Hl Hr. unfold strip. rewrite (lstrip_spaces l _ Hl).
  destruct (lstrip s) as [|a t] eqn:Hs.
  - apply lstrip_all_spaces in Hs.
    rewrite (lstrip_spaces s r Hs).
    destruct (lstrip_split r) as [l' [Hsplit Hl']].
    apply rstrip_spaces_only.
    rewrite Hsplit in Hr. apply Forall_app in Hr as [_ Hr]. exact Hr.
  - rewrite lstrip_app_nonempty by congruence.
    rewrite Hs. apply rstrip_spaces. exact Hr.
Qed.

(** X6. Whitespace around a name is ignored: the call with the padded
    name has the outcome, and leaves the machine, of the call with the
    name itself. *)
Theorem surrounding_whitespace_ignored (l name r : list N) :
  Forall (fun c => isspace c = true) l ->
  Forall (fun c => isspace c = true) r ->
  forall (value : Type) (rt : runtime value) (cache sp : bool)
         (tp : option string) (ac : bool) (m : machine value),
    query_planet rt (l ++ name ++ r) cache sp tp ac m
    = query_planet rt name cache sp tp ac m
    /\ query_star rt (l ++ name ++ r) cache sp tp ac m
       = query_star rt name cache sp tp ac m.
Proof.
  intros Hl Hr value rt cache sp tp ac m.
  rewrite !query_planet_run, !query_star_run.
  unfold planet_test, star_test, key_of.
  rewrite (strip_padded l name r Hl Hr). auto.
Qed.

End Names.

Section LocalFiles.
Context {value : Type} (rt : runtime value).

Implicit Types (m : machine value).

Lemma get_confirmed_planets_table_run_stored (tp : option string)
    (ac cache sp : bool) m (t : QTable value) :
  _table (self m) = Some t ->
  get_confirmed_planets_table rt tp ac cache sp m = (Return (Some t), m).
Proof.
  intros H. rewrite get_confirmed_planets_table_run, H. reflexivity.
Qed.

(** With a [table_path], [load_table] looks at nothing else. *)
Lemma load_table_local (url url' : string) (cache cache' sp sp' : bool)
    (path : string) (ac ac' : bool) m :
  load_table rt url cache sp (Some path) ac m
  = load_table rt url' cache' sp' (Some path) ac' m.
Proof. reflexivity. Qed.

(** X4. With a [table_path], no method downloads anything, and
    [show_progress] and [all_columns] change nothing of what the call
    returns or leaves. *)
Theorem table_path_means_no_download (op : operation) (cache sp sp' : bool)
    (path : string) (ac ac' : bool) m :
  call rt op cache sp (Some path) ac m = call rt op cache sp' (Some path) ac' m
  /\ exists ext,
       trace (snd (call rt op cache sp (Some path) ac m)) = trace m ++ ext
       /\ List.filter is_download ext = [].
Proof.
  split.
  - rewrite !call_run.
    destruct (op_url op) as [url|]; [|reflexivity].
    destruct (op_test op m cache); [reflexivity|].
    rewrite (load_table_local url url cache cache sp sp' path ac ac').
    reflexivity.
  - destruct (op_url op) as [url|] eqn:Hu.
    + destruct (op_test op m cache) eqn:Ht.
      * exists []. rewrite call_run, Hu, Ht, app_nil_r.
        destruct (op_start_effect op m) as [H _]. split; [exact H | auto].
      * destruct (call_miss_trace rt op cache sp (Some path) ac m url Hu Ht)
          as [ext [He Hd]].
        exists (ERead path false :: ext). split; [exact He|].
        cbn [List.filter is_download]. apply filter_no_download. exact Hd.
    + exists []. rewrite call_run, Hu, app_nil_r.
      destruct (op_start_effect op m) as [H _]. split; [exact H | auto].
Qed.

(** X5. A local file is not filtered by the name: on a client that holds
    no table, [query_planet] and [query_star] with the same [table_path]
    return the same table for any two names (that [quote] can encode), and
    for any [cache] flags. *)
Theorem table_path_not_filtered_by_name (name name' : list N)
    (q q' : string) (cache cache' sp sp' : bool) (path : string)
    (ac ac' : bool) m :
  _table (self m) = None ->
  quote (format_quoted (strip name)) = Some q ->
  quote (format_quoted (strip name')) = Some q' ->
  fst (query_planet rt name cache sp (Some path) ac m)
  = fst (query_planet rt name' cache' sp' (Some path) ac' m)
  /\ fst (query_planet rt name cache sp (Some path) ac m)
     = fst (query_star rt name' cache' sp' (Some path) ac' m).
Proof.
  intros Hnone Hq Hq'.
  rewrite !query_planet_run, query_star_run, Hq, Hq'.
  unfold planet_test, star_test. rewrite Hnone. cbn [is_not_None andb].
  rewrite (load_table_local (planet_url q) (planet_url q') cache cache'
             sp sp' path ac ac').
  rewrite (load_table_local (star_url q') (planet_url q') cache' cache'
             sp' sp' path ac' ac').
  destruct (load_table rt (planet_url q') cache' sp' (Some path) ac' (alloc m))
    as [[t|e] m']; [|auto].
  destruct (QTable_accepts rt t); auto.
Qed.

(** X7. What a method returns is never [None], it is the table the
    instance then holds, and [get_confirmed_planets_table] returns that
    same table from then on, with any arguments and without I/O, whichever
    query built it. *)
Theorem returned_table_is_served_again (op : operation) (cache sp : bool)
    (tp : option string) (ac : bool) m (x : option (QTable value)) :
  fst (call rt op cache sp tp ac m) = Return x ->
  let m' := snd (call rt op cache sp tp ac m) in
  x <> None
  /\ _table (self m') = x
  /\ forall (tp' : option string) (ac' cache' sp' : bool),
       get_confirmed_planets_table rt tp' ac' cache' sp' m' = (Return x, m').
Proof.
  intros Hx m'.
  assert (H : x <> None /\ _table (self m') = x).
  { subst m'. revert Hx. rewrite call_run.
    destruct (op_url op) as [url|]; [|discriminate].
    destruct (op_test op m cache) eqn:Ht.
    - cbn [fst snd]. intros [= <-].
      destruct (op_start_effect op m) as [_ [Htab _]]. rewrite Htab.
      split; [|reflexivity].
      destruct op; cbn in Ht; unfold planet_test, star_test in Ht;
        destruct (_table (self m)); try discriminate; cbn in Ht; discriminate.
    - destruct (load_table rt url cache sp tp ac (op_start op m))
        as [[t|e] m1]; [|discriminate].
      destruct (QTable_accepts rt t); [|discriminate].
      cbn [fst snd]. intros [= <-]. split; [discriminate|].
      destruct op; reflexivity. }
  destruct H as [Hsome Htab]. split; [exact Hsome|]. split; [exact Htab|].
  intros tp' ac' cache' sp'.
  destruct x as [t|]; [|contradiction].
  apply get_confirmed_planets_table_run_stored. exact Htab.
Qed.

End LocalFiles.

Section SessionLemmas.
Context {value : Type} (rt : runtime value).

Implicit Types (m : machine value).

Lemma load_table_units (url : string) (cache sp : bool)
    (tp : option string) (ac : bool) m :
  units_step rt m (snd (load_table rt url cache sp tp ac m)).
Proof.
  assert (Hplain : forall es,
    forallb (fun e => negb (is_load_units e)) es = true ->
    units_step rt m (logged es m)).
  { intros es Hes. left. split; [reflexivity|].
    apply units_reads_logged. exact Hes. }
  assert (Hloaded : forall es,
    forallb (fun e => negb (is_load_units e)) es = true ->
    units_step rt m (units_loaded rt (logged es m))).
  { intros es Hes.
    pose proof (units_reads_logged es m Hes) as Hlog.
    unfold units_step, units_loaded.
    change (_param_units (self (logged es m))) with (_param_units (self m)).
    destruct (_param_units (self m)) eqn:Hu.
    + left. split; [exact Hu | exact Hlog].
    + right. cbn [self trace _param_units].
      split; [reflexivity|]. split; [reflexivity|].
      unfold units_reads in *.
      rewrite List.filter_app, length_app, Hlog. cbn. lia. }
  assert (Hdl : forall es,
    forallb (fun e => negb (is_load_units e))
      (download_events url cache sp tp ac ++ es)
    = forallb (fun e => negb (is_load_units e)) es)
    by (intros es; unfold download_events; destruct tp; reflexivity).
  destruct (obtain_path rt m url cache sp tp ac) as [fe|path] eqn:Hp.
  { rewrite (load_table_fetch_error rt url cache sp tp ac m fe Hp).
    apply Hplain.
    rewrite <- (app_nil_r (download_events _ _ _ _ _)), Hdl. reflexivity. }
  destruct (ascii_read rt (trace m ++ download_events url cache sp tp ac)
              path false) as [re|p] eqn:Hread.
  { rewrite (load_table_read_error rt url cache sp tp ac m path re Hp Hread).
    apply Hplain. rewrite Hdl. reflexivity. }
  rewrite (load_table_parsed rt url cache sp tp ac m path p Hp Hread).
  destruct (sky_coord_of rt p) as [e|c]; cbn [snd].
  - apply Hplain. rewrite Hdl. reflexivity.
  - apply Hloaded. rewrite Hdl. reflexivity.
Qed.

Lemma call_units (op : operation) (cache sp : bool) (tp : option string)
    (ac : bool) m :
  units_step rt m (snd (call rt op cache sp tp ac m)).
Proof.
  rewrite call_run.
  assert (Hstart : self (op_start op m) = self m
                   /\ trace (op_start op m) = trace m)
    by (destruct op; split; reflexivity).
  destruct Hstart as [Hself Htrace].
  assert (Hsame : units_step rt m (op_start op m))
    by (left; rewrite Hself, Htrace; auto).
  destruct (op_url op) as [url|]; [|exact Hsame].
  destruct (op_test op m cache); [exact Hsame|].
  pose proof (load_table_units url cache sp tp ac (op_start op m)) as Hl.
  destruct (load_table rt url cache sp tp ac (op_start op m)) as [[t|e] m'];
    cbn [snd] in *.
  - unfold units_step in *. rewrite Hself, Htrace in Hl.
    destruct (QTable_accepts rt t); [destruct op; exact Hl | exact Hl].
  - unfold units_step in *. rewrite Hself, Htrace in Hl. exact Hl.
Qed.

Lemma session_snoc (rs : list request) (r : request) :
  session rt (rs ++ [r]) = serve rt (session rt rs) r.
Proof. unfold session. rewrite fold_left_app. reflexivity. Qed.

(** X8. In any session the units file is opened at most once, by the
    first call that gets as far as assigning units; [_param_units] is
    empty before that and holds the file's content ever after. *)
Theorem units_file_read_once (rs : list request) :
  (units_reads (trace (session rt rs)) = 0%nat
   /\ _param_units (self (session rt rs)) = None)
  \/ (units_reads (trace (session rt rs)) = 1%nat
      /\ _param_units (self (session rt rs)) = Some (units_json rt)).
Proof.
  induction rs as [|r rs IH] using rev_ind.
  - left. split; reflexivity.
  - rewrite session_snoc. unfold serve.
    destruct (call_units (req_op r) (req_cache r) (req_show_progress r)
                (req_table_path r) (req_all_columns r) (session rt rs))
      as [[Hu Hr] | [Hnone [Hsome Hr]]].
    + rewrite Hu, Hr. exact IH.
    + right. rewrite Hsome, Hr.
      destruct IH as [[H0 _] | [_ H1]]; [rewrite H0; auto | congruence].
Qed.

Lemma wf_session (rs : list request) : wf (session rt rs) = true.
Proof.
  induction rs as [|r rs IH] using rev_ind; [reflexivity|].
  rewrite session_snoc. apply wf_call. exact IH.
Qed.

(** X9. After any session, [query_planet] and [query_star] are never
    answered from the cache, whatever the name and the flags: the test of
    lines 80 and 141 compares the stored key by identity with a string the
    call has just built. *)
Theorem query_never_answered_from_cache (rs : list request) (name : list N)
    (cache sp : bool) (tp : option string) (ac : bool) :
  ~ cache_hit (session rt rs)
      (query_planet rt name cache sp tp ac (session rt rs))
  /\ ~ cache_hit (session rt rs)
         (query_star rt name cache sp tp ac (session rt rs)).
Proof.
  split.
  - apply (call_miss_not_hit rt (ByPlanet name)).
    apply wf_test_false; [apply wf_session | discriminate].
  - apply (call_miss_not_hit rt (ByStar name)).
    apply wf_test_false; [apply wf_session | discriminate].
Qed.

End SessionLemmas.

Section Columns.
Context {value : Type} (rt : runtime value).

Implicit Types (m : machine value) (t p : Table value).

Lemma colnames_set_unit t (name : string) (u : Unit) :
  colnames (set_unit t name u) = colnames t.
Proof.
  induction t as [|c t IH]; [reflexivity|].
  cbn [set_unit]. destruct (String.eqb (col_name c) name); [reflexivity|].
  unfold colnames in *. cbn [map]. rewrite IH. reflexivity.
Qed.

Lemma colnames_annotate (units : gmap string string) (names : list string)
    t (T : Table value) :
  annotate rt units names t = Some T -> colnames T = colnames t.
Proof.
  revert t. induction names as [|col names IH]; intros t.
  - intros [= <-]. reflexivity.
  - cbn [annotate]. destruct (unit_refused rt units col); [discriminate|].
    destruct (unit_for rt units col) as [u|]; intros H; rewrite (IH _ H);
      [apply colnames_set_unit | reflexivity].
Qed.

Lemma colnames_setitem t (name : string) (d : ColumnData value) :
  colnames (setitem t name d)
  = if existsb (String.eqb name) (colnames t)
    then colnames t
    else colnames t ++ [name].
Proof.
  induction t as [|c t IH]; [reflexivity|].
  cbn [setitem colnames map existsb]. fold (colnames t).
  rewrite (String.eqb_sym name (col_name c)).
  destruct (String.eqb_spec (col_name c) name) as [E|E]; cbn [orb].
  - cbn [map col_name]. rewrite E. reflexivity.
  - cbn [map]. fold (colnames (setitem t name d)). rewrite IH.
    destruct (existsb (String.eqb name) (colnames t)); reflexivity.
Qed.

(** X10. Whenever a call that reads a file returns, the table returned
    has the columns of the file, in the file's order, and the coordinate
    column [sky_coord] after them; a file that already has a column of
    that name keeps its columns and order, that column being the one
    replaced.  The call does return when lines 95-96 build a coordinate
    and [u.Unit] accepts every name that passes [hasattr]. *)
Theorem returned_columns_in_file_order (op : operation) (cache sp : bool)
    (tp : option string) (ac : bool) m p :
  reads rt op cache sp tp ac m p ->
  (forall T : QTable value,
     fst (call rt op cache sp tp ac m) = Return (Some T) ->
     colnames (cols T)
     = if existsb (String.eqb "sky_coord") (colnames p)
       then colnames p
       else colnames p ++ ["sky_coord"%string])
  /\ (forall sc,
        sky_coord_of rt p = inr sc ->
        (forall name unit_name,
           units_of rt m !! name = Some unit_name ->
           hasattr_u rt unit_name = true ->
           Unit_accepts rt unit_name = true) ->
        (forall t : Table value, QTable_accepts rt t = true) ->
        exists T : QTable value,
          fst (call rt op cache sp tp ac m) = Return (Some T)).
Proof.
  intros Hreads. split.
  - intros T HT.
    apply (reads_returns rt op cache sp tp ac m p T Hreads) in HT
      as [sc [t [_ [Ha [_ ->]]]]].
    cbn [cols].
    rewrite colnames_QTable_columns, (colnames_annotate _ _ _ _ Ha).
    unfold with_sky_coord. apply colnames_setitem.
  - intros sc Hsc Hunits Hq.
    apply (reads_returns_when rt op cache sp tp ac m p sc Hreads Hsc);
      [|exact Hq].
    intros name unit_name _. apply Hunits.
Qed.

(** X11. Whenever a call that reads a file returns, a column of the file
    whose name is not a key of the units mapping comes back as it was
    read: its values, and the unit the file declared for it, if any.  The
    call does return when lines 95-96 build a coordinate and [u.Unit]
    accepts every name that passes [hasattr]. *)
Theorem unmapped_column_unchanged (op : operation) (cache sp : bool)
    (tp : option string) (ac : bool) m p
    (name : string) (c : Column value) (vs : list value) :
  reads rt op cache sp tp ac m p ->
  getitem p name = Some c ->
  col_data c = Values vs ->
  name <> "sky_coord"%string ->
  units_of rt m !! name = None ->
  (forall T : QTable value,
     fst (call rt op cache sp tp ac m) = Return (Some T) ->
     getitem (cols T) name = Some c)
  /\ (forall sc,
        sky_coord_of rt p = inr sc ->
        (forall name unit_name,
           units_of rt m !! name = Some unit_name ->
           hasattr_u rt unit_name = true ->
           Unit_accepts rt unit_name = true) ->
        (forall t : Table value, QTable_accepts rt t = true) ->
        exists T : QTable value,
          fst (call rt op cache sp tp ac m) = Return (Some T)).
Proof.
  intros Hreads Hc Hvs Hne Hunit. split.
  - intros T HT.
    apply (reads_returns rt op cache sp tp ac m p T Hreads) in HT
      as [sc [t [_ [Ha [_ ->]]]]].
    cbn [cols].
    destruct (annotate_colnames rt (units_of rt m) (with_sky_coord p sc) t
                name c Ha) as [c' [Hg [Hd Hu]]].
    { unfold with_sky_coord. rewrite getitem_setitem.
      destruct (String.eqb_spec "sky_coord" name) as [E|_]; [congruence|].
      exact Hc. }
    rewrite getitem_QTable_columns, Hg. cbn [option_map].
    unfold QTable_column. rewrite Hd, Hvs. f_equal.
    pose proof (getitem_name _ _ _ Hg) as Hn.
    pose proof (getitem_name _ _ _ Hc) as Hn'.
    unfold unit_for in Hu. rewrite Hunit in Hu.
    destruct c' as [n' d' u'], c as [n d u]. cbn in *. congruence.
  - intros sc Hsc Hunits Hq.
    apply (reads_returns_when rt op cache sp tp ac m p sc Hreads Hsc);
      [|exact Hq].
    intros name0 unit_name _. apply Hunits.
Qed.

End Columns.

Section BlankName.

Lemma strip_blank (name : list N) :
  Forall (fun c => isspace c = true) name -> strip name = [].
Proof.
  intros H. pose proof (strip_padded name [] [] H (Forall_nil_2 _)) as E.
  cbn [app] in E. rewrite app_nil_r in E. exact E.
Qed.

(** X12. An empty or all-whitespace name is not rejected: when they
    download, [query_planet] and [query_star] send the query with the
    value [%27%27], the escaped pair of quotes. *)
Theorem blank_name_is_sent (name : list N) :
  Forall (fun c => isspace c = true) name ->
  forall (value : Type) (rt : runtime value) (cache sp ac : bool)
         (m : machine value),
    (planet_test m name cache = false ->
     exists ext,
       trace (snd (query_planet rt name cache sp None ac m))
       = trace m
         ++ EDownload
              (if ac
               then ((EXOPLANETS_CSV_URL ++ "&where=pl_name=%27%27")
                     ++ "&select=*")%string
               else (EXOPLANETS_CSV_URL ++ "&where=pl_name=%27%27")%string)
              cache sp 120
         :: ext)
    /\ (star_test m name cache = false ->
        exists ext,
          trace (snd (query_star rt name cache sp None ac m))
          = trace m
            ++ EDownload
                 (if ac
                  then ((EXOPLANETS_CSV_URL ++ "&where=pl_hostname=%27%27")
                        ++ "&select=*")%string
                  else (EXOPLANETS_CSV_URL ++ "&where=pl_hostname=%27%27")%string)
                 cache sp 120
            :: ext).
Proof.
  intros Hblank value rt cache sp ac m.
  assert (Hq : quote (format_quoted (strip name)) = Some "%27%27"%string)
    by (rewrite (strip_blank name Hblank); reflexivity).
  split; intros Ht.
  - destruct (call_miss_trace rt (ByPlanet name) cache sp None ac m
                (planet_url "%27%27")) as [ext [He _]];
      [cbn [op_url]; rewrite Hq; reflexivity | exact Ht |].
    exists ext. exact He.
  - destruct (call_miss_trace rt (ByStar name) cache sp None ac m
                (star_url "%27%27")) as [ext [He _]];
      [cbn [op_url]; rewrite Hq; reflexivity | exact Ht |].
    exists ext. exact He.
Qed.

End BlankName.

Section UrlInjective.

Lemma utf8_div_facts (c : N) :
  c = 64 * (c / 64) + c mod 64
  /\ c mod 64 < 64
  /\ c / 64 = 64 * (c / 4096) + (c / 64) mod 64
  /\ (c / 64) mod 64 < 64
  /\ c / 4096 = 64 * (c / 262144) + (c / 4096) mod 64
  /\ (c / 4096) mod 64 < 64.
Proof.
  assert (H4096 : c / 4096 = c / 64 / 64)
    by (rewrite N.Div0.div_div; reflexivity).
  assert (H262144 : c / 262144 = c / 4096 / 64)
    by (rewrite N.Div0.div_div; reflexivity).
  repeat split.
  - apply N.div_mod'.
  - apply N.mod_lt. discriminate.
  - rewrite H4096. apply N.div_mod'.
  - apply N.mod_lt. discriminate.
  - rewrite H262144. apply N.div_mod'.
  - apply N.mod_lt. discriminate.
Qed.

(** The encoding of a code point can be read off the front of a byte
    sequence in one way only. *)
Lemma utf8_encode_cp_cancel (c c' : N) (b b' r r' : list N) :
  utf8_encode_cp c = Some b ->
  utf8_encode_cp c' = Some b' ->
  b ++ r = b' ++ r' ->
  c = c' /\ r = r'.
Proof.
  pose proof (utf8_div_facts c) as [F1 [F2 [F3 [F4 [F5 F6]]]]].
  pose proof (utf8_div_facts c') as [G1 [G2 [G3 [G4 [G5 G6]]]]].
  unfold utf8_encode_cp.
  destruct (N.ltb_spec c 0x80);
    [|destruct (N.ltb_spec c 0x800);
      [|destruct (N.ltb_spec c 0x10000);
        [destruct ((0xD800 <=? c) && (c <=? 0xDFFF)); [discriminate|]
        |destruct (N.ltb_spec c 0x110000); [|discriminate]]]];
  (destruct (N.ltb_spec c' 0x80);
    [|destruct (N.ltb_spec c' 0x800);
      [|destruct (N.ltb_spec c' 0x10000);
        [destruct ((0xD800 <=? c') && (c' <=? 0xDFFF)); [discriminate|]
        |destruct (N.ltb_spec c' 0x110000); [|discriminate]]]]);
  intros [= <-] [= <-] Hbytes; cbn [app] in Hbytes; inversion Hbytes; subst;
  first [ exfalso; lia | split; [lia | reflexivity] ].
Qed.

Lemma utf8_encode_cp_not_nil (c : N) : utf8_encode_cp c <> Some [].
Proof.
  unfold utf8_encode_cp.
  repeat match goal with
         | |- context [if ?b then _ else _] => destruct b
         end; discriminate.
Qed.

Lemma utf8_encode_inj (s s' bs : list N) :
  utf8_encode s = Some bs -> utf8_encode s' = Some bs -> s = s'.
Proof.
  revert s' bs. induction s as [|c s IH]; intros [|c' s'] bs; cbn [utf8_encode].
  - reflexivity.
  - intros [= <-].
    destruct (utf8_encode_cp c') as [b'|] eqn:Hc'; [|discriminate].
    destruct (utf8_encode s') as [bs'|]; [|discriminate].
    intros [= H]. apply app_eq_nil in H as [-> _].
    contradiction (utf8_encode_cp_not_nil c').
  - destruct (utf8_encode_cp c) as [b|] eqn:Hc; [|discriminate].
    destruct (utf8_encode s) as [bs0|]; [|discriminate].
    intros [= <-] [= H]. symmetry in H. apply app_eq_nil in H as [-> _].
    contradiction (utf8_encode_cp_not_nil c).
  - destruct (utf8_encode_cp c) as [b|] eqn:Hc; [|discriminate].
    destruct (utf8_encode s) as [bs0|] eqn:Hs; [|discriminate].
    destruct (utf8_encode_cp c') as [b'|] eqn:Hc'; [|discriminate].
    destruct (utf8_encode s') as [bs0'|] eqn:Hs'; [|discriminate].
    intros [= <-] [= H].
    destruct (utf8_encode_cp_cancel c c' b b' bs0 bs0' Hc Hc' (eq_sym H))
      as [-> ->].
    f_equal. apply (IH s' bs0' eq_refl Hs').
Qed.

(** Two texts with the same escaped form are the same text. *)
Lemma quote_inj (s s' : list N) (q : string) :
  quote s = Some q -> quote s' = Some q -> s = s'.
Proof.
  intros Hq Hq'.
  destruct (quote_decodes s q Hq) as [bs [Hs Hd]].
  destruct (quote_decodes s' q Hq') as [bs' [Hs' Hd']].
  assert (bs = bs') by congruence. subst bs'.
  apply (utf8_encode_inj s s' bs); assumption.
Qed.

Lemma append_cancel_l (a s s' : string) :
  (a ++ s)%string = (a ++ s')%string -> s = s'.
Proof.
  induction a as [|x a IH]; [exact id|].
  change ((String x a ++ s)%string) with (String x (a ++ s)%string).
  change ((String x a ++ s')%string) with (String x (a ++ s')%string).
  intros [= H]. apply IH. exact H.
Qed.

(** X13. Two names are sent as the same URL exactly when they are the
    same once stripped: no two different planets, or host stars, share a
    query. *)
Theorem same_url_same_name (name name' : list N) (q q' : string) :
  quote (format_quoted (strip name)) = Some q ->
  quote (format_quoted (strip name')) = Some q' ->
  (planet_url q = planet_url q' <-> strip name = strip name')
  /\ (star_url q = star_url q' <-> strip name = strip name').
Proof.
  intros Hq Hq'.
  assert (Hiff : q = q' <-> strip name = strip name').
  { split.
    - intros <-. pose proof (quote_inj _ _ _ Hq Hq') as H.
      unfold format_quoted in H.
      apply app_inv_head in H. apply app_inv_tail in H. exact H.
    - intros E. rewrite E in Hq. congruence. }
  unfold planet_url, star_url. split; (split; [|intros E; f_equal;
    f_equal; apply Hiff; exact E]); intros E;
    apply Hiff; do 2 apply append_cancel_l in E; exact E.
Qed.

End UrlInjective.

(** * The entry points of [setup.py] *)

Section SetupLemmas.

(** X14. [setup.py] builds its entry points from the four
    [zest.releaser] hooks only, so any entry of the [entry_points]
    section of [setup.cfg] makes the script raise
    [KeyError('console_scripts')]: the list it appends to was never
    created.  Without such entries the hooks are what [setup] gets. *)
Theorem console_script_entry_raises :
  (forall (entry_point : string * string) (rest : list (string * string)),
     Setup.entry_points (entry_point :: rest)
     = inl (KeyError "console_scripts"))
  /\ Setup.entry_points []
     = inr {[ "zest.releaser.prereleaser.middle"%string :=
                ["astroquery.release.prereleaser.middle = astropy.utils.release:prereleaser_middle"%string];
              "zest.releaser.releaser.middle"%string :=
                ["astroquery.release.releaser.middle = astropy.utils.release:releaser_middle"%string];
              "zest.releaser.postreleaser.before"%string :=
                ["astroquery.release.postreleaser.before = astropy.utils.release:postreleaser_before"%string];
              "zest.releaser.postreleaser.middle"%string :=
                ["astroquery.release.postreleaser.middle = astropy.utils.release:postreleaser_middle"%string] ]}.
Proof.
  split.
  - intros entry_point rest. unfold Setup.entry_points.
    cbn [Setup.add_console_scripts].
    assert (H : Setup.hook_entry_points !! "console_scripts"%string = None)
      by (vm_compute; reflexivity).
    rewrite H. reflexivity.
  - vm_compute. reflexivity.
Qed.

End SetupLemmas.

(** * The sample worlds, run further *)

Module Kepler7More.
Import Sample Worlds.

Lemma raising_call_leaves_instance_witness :
  (fst (query_planet garbled kepler7b true true (Some "kepler7.csv"%string)
          false after_planet)
   = Raise (ReadError Malformed)
   /\ self (snd (query_planet garbled kepler7b true true
                   (Some "kepler7.csv"%string) false after_planet))
      = self after_planet)
  /\ (fst (query_planet quantity_world kepler7b true true
             (Some "kepler7.csv"%string) false boot)
      = Raise ValueError
      /\ (self (snd (query_planet quantity_world kepler7b true true
                       (Some "kepler7.csv"%string) false boot))
          = self boot
          \/ self (snd (query_planet quantity_world kepler7b true true
                          (Some "kepler7.csv"%string) false boot))
             = self (units_loaded quantity_world boot))).
Proof.
  split.
  - split; [vm_compute; reflexivity|].
    destruct (raising_call_leaves_instance garbled (ByPlanet kepler7b) true
                true (Some "kepler7.csv"%string) false after_planet
                (ReadError Malformed)) as [_ [_ [_ [_ Hsame]]]];
      [vm_compute; reflexivity|].
    apply Hsame; discriminate.
  - split; [vm_compute; reflexivity|].
    destruct (raising_call_leaves_instance quantity_world (ByPlanet kepler7b)
                true true (Some "kepler7.csv"%string) false boot
                ValueError) as [_ [_ [_ [Hloaded _]]]];
      [vm_compute; reflexivity|].
    exact Hloaded.
Defined.

Lemma no_ra_read :
  reads no_ra (ByStar kepler7_host) true true (Some "kepler7.csv"%string)
    false boot
    (Table_of_parsed
       [("pl_orbper", [4885525 # 1000000]%Q); ("dec", [44%Q])]%string).
Proof.
  exists (star_url "%27Kepler-7%27"), "kepler7.csv"%string.
  repeat split; vm_compute; reflexivity.
Defined.

Lemma no_dec_read :
  reads no_dec AllPlanets true true None false boot
    (Table_of_parsed
       [("pl_orbper", [4885525 # 1000000]%Q); ("ra", [290%Q])]%string).
Proof.
  exists EXOPLANETS_CSV_URL, ("/cache/" ++ EXOPLANETS_CSV_URL)%string.
  repeat split; vm_compute; reflexivity.
Defined.

Lemma text_ra_read :
  reads text_ra AllPlanets true true (Some "names.csv"%string) false boot
    (Table_of_parsed [("ra", [19%Q]); ("pl_orbper", [5%Q])]%string).
Proof.
  exists EXOPLANETS_CSV_URL, "names.csv"%string.
  repeat split; vm_compute; reflexivity.
Defined.

Lemma missing_coordinate_column_raises_witness :
  fst (query_star no_ra kepler7_host true true (Some "kepler7.csv"%string)
         false boot) = Raise (KeyError "ra")
  /\ fst (get_confirmed_planets_table text_ra (Some "names.csv"%string) false
            true true boot)
     = Raise TypeError
  /\ fst (get_confirmed_planets_table no_dec None false true true boot)
     = Raise (KeyError "dec").
Proof.
  split; [|split].
  - apply (missing_coordinate_column_raises no_ra (ByStar kepler7_host) true
             true (Some "kepler7.csv"%string) false boot _ no_ra_read).
    reflexivity.
  - apply (proj1 (proj2 (missing_coordinate_column_raises text_ra AllPlanets
                           true true (Some "names.csv"%string) false boot _
                           text_ra_read))
             (plain_column ("ra"%string, [19%Q])) [19%Q]);
      reflexivity.
  - apply (proj2 (proj2 (missing_coordinate_column_raises no_dec AllPlanets
                           true true None false boot _ no_dec_read))
             (plain_column ("ra"%string, [290%Q])) [290%Q]);
      reflexivity.
Defined.

Lemma quantity_read :
  reads quantity_world (ByPlanet kepler7b) true true
    (Some "kepler7.csv"%string) false boot (Table_of_parsed kepler7).
Proof.
  exists (planet_url "%27Kepler-7%20b%27"), "kepler7.csv"%string.
  repeat split; vm_compute; reflexivity.
Defined.

Lemma non_unit_attribute_raises_witness :
  fst (query_planet quantity_world kepler7b true true
         (Some "kepler7.csv"%string) false boot) = Raise ValueError
  /\ _param_units
       (self (snd (query_planet quantity_world kepler7b true true
                     (Some "kepler7.csv"%string) false boot)))
     = Some (units_json quantity_world)
  /\ _table
       (self (snd (query_planet quantity_world kepler7b true true
                     (Some "kepler7.csv"%string) false boot)))
     = None.
Proof.
  eapply (non_unit_attribute_raises quantity_world (ByPlanet kepler7b) true
            true (Some "kepler7.csv"%string) false boot
            (Table_of_parsed kepler7) _ "pl_orbper" "Quantity" quantity_read).
  - vm_compute. reflexivity.
  - right. left. reflexivity.
  - vm_compute. reflexivity.
  - reflexivity.
  - reflexivity.
Defined.

Lemma lone_surrogate_raises_witness :
  query_planet world broken_name true true (Some "kepler7.csv"%string) false
    after_planet
  = (Raise UnicodeEncodeError, alloc after_planet).
Proof.
  apply (lone_surrogate_raises broken_name 0xD800%N).
  - vm_compute. tauto.
  - lia.
Defined.

Lemma table_path_not_filtered_by_name_witness :
  fst (query_planet world kepler7b true true (Some "kepler7.csv"%string)
         false boot)
  = fst (query_star world kepler7_host false false
           (Some "kepler7.csv"%string) true boot).
Proof.
  apply (table_path_not_filtered_by_name world kepler7b kepler7_host
           "%27Kepler-7%20b%27" "%27Kepler-7%27" true false true false
           "kepler7.csv" false true boot);
    vm_compute; reflexivity.
Defined.

Lemma surrounding_whitespace_ignored_witness :
  query_planet world (lit " " ++ kepler7b ++ [0x0A%N; 0xA0%N]) true true None
    false boot
  = query_planet world kepler7b true true None false boot.
Proof.
  apply (surrounding_whitespace_ignored (lit " ") kepler7b [0x0A%N; 0xA0%N]).
  - repeat constructor.
  - repeat constructor.
Defined.

Lemma returned_table_is_served_again_witness :
  fst (query_planet world kepler7b true true (Some "kepler7.csv"%string)
         false boot)
  = Return (Some {| tid := 1; cols := kepler7_columns |})
  /\ get_confirmed_planets_table world None true false false after_planet
     = (Return (Some {| tid := 1; cols := kepler7_columns |}), after_planet).
Proof.
  split; [vm_compute; reflexivity|].
  apply (returned_table_is_served_again world (ByPlanet kepler7b) true true
           (Some "kepler7.csv"%string) false boot
           (Some {| tid := 1; cols := kepler7_columns |})).
  vm_compute. reflexivity.
Defined.

Example three_calls_run :
  trace (session world three_calls)
  = [EDownload (planet_url "%27Kepler-7%20b%27") true true 120;
     ERead ("/cache/" ++ planet_url "%27Kepler-7%20b%27") false;
     ELoadUnits;
     ERead "kepler7.csv" false]
  /\ _table (self (session world three_calls))
     = Some {| tid := 3; cols := kepler7_columns |}.
Proof. vm_compute. auto. Qed.

Lemma returned_columns_in_file_order_witness :
  reads world (ByPlanet kepler7b) true true None false boot
    (Table_of_parsed kepler7)
  /\ exists T : QTable Q,
       fst (query_planet world kepler7b true true None false boot)
       = Return (Some T)
       /\ colnames (cols T)
          = ["pl_orbper"; "pl_radj"; "ra"; "dec"; "st_teff";
             "sky_coord"]%string.
Proof.
  split; [exact Kepler7.kepler7_read|].
  destruct (returned_columns_in_file_order world (ByPlanet kepler7b) true true
              None false boot (Table_of_parsed kepler7) Kepler7.kepler7_read)
    as [Hcols Hret].
  edestruct Hret as [T HT].
  - vm_compute. reflexivity.
  - intros name unit_name _. apply Kepler7.world_units_accepted.
  - reflexivity.
  - exists T. split; [exact HT|]. rewrite (Hcols T HT). reflexivity.
Defined.

Lemma catalog_read :
  reads catalog_world AllPlanets true true (Some "catalog.csv"%string) false
    boot catalog.
Proof.
  exists EXOPLANETS_CSV_URL, "catalog.csv"%string.
  repeat split; vm_compute; reflexivity.
Defined.

Example catalog_columns :
  exists T : QTable Q,
    fst (get_confirmed_planets_table catalog_world (Some "catalog.csv"%string)
           false true true boot) = Return (Some T)
    /\ colnames (cols T) = ["pl_pnum"; "sky_coord"; "ra"; "dec"]%string.
Proof. eexists. split; vm_compute; reflexivity. Qed.

Lemma unmapped_column_unchanged_witness :
  reads catalog_world AllPlanets true true (Some "catalog.csv"%string) false
    boot catalog
  /\ exists T : QTable Q,
       fst (get_confirmed_planets_table catalog_world
              (Some "catalog.csv"%string) false true true boot)
       = Return (Some T)
       /\ getitem (cols T) "pl_pnum"
          = Some {| col_name := "pl_pnum"; col_data := Values [1%Q];
                    col_unit := None |}.
Proof.
  split; [exact catalog_read|].
  destruct (unmapped_column_unchanged catalog_world AllPlanets true true
              (Some "catalog.csv"%string) false boot catalog "pl_pnum"
              (plain_column ("pl_pnum"%string, [1%Q])) [1%Q] catalog_read)
    as [Hcol Hret];
    [reflexivity | reflexivity | discriminate | vm_compute; reflexivity |].
  edestruct Hret as [T HT].
  - vm_compute. reflexivity.
  - intros name unit_name _. apply Kepler7.world_units_accepted.
  - reflexivity.
  - exists T. split; [exact HT|]. exact (Hcol T HT).
Defined.

Lemma blank_name_is_sent_witness :
  exists ext,
    trace (snd (query_planet world (lit "  ") true true None false boot))
    = trace (value := Q) boot
      ++ EDownload (EXOPLANETS_CSV_URL ++ "&where=pl_name=%27%27") true true 120
      :: ext.
Proof.
  apply (blank_name_is_sent (lit "  ")); [repeat constructor | reflexivity].
Defined.

Lemma same_url_same_name_witness :
  planet_url "%27Kepler-7%20b%27" = planet_url "%27Kepler-7%20b%27"
  <-> strip (lit " Kepler-7 b") = strip kepler7b.
Proof.
  apply (same_url_same_name (lit " Kepler-7 b") kepler7b
           "%27Kepler-7%20b%27" "%27Kepler-7%20b%27");
    vm_compute; reflexivity.
Defined.

End Kepler7More.
